(** * zabbix_template_readme_generator: a shallow embedding

    The generator reads a Zabbix template export (YAML), walks the parsed
    tree and writes a Markdown document with one table per entity kind.

    Modelling conventions.
    - A Python [str] is a [string] holding the UTF-8 encoding of the text.
      The two characters the sanitizer looks for (line feed and the bar)
      are ASCII, so replacing them byte-wise and character-wise coincide.
    - A value produced by [yaml.safe_load] is a [value]: [None], a bool, an
      int, a str, a list or a dict with str keys.  Floats, timestamps, sets
      and byte strings are left out; a key that is not a str never compares
      equal to the str keys the program looks up.
    - [str()] of an int raises [ValueError] above the interpreter's digit
      limit ([max_str_digits], 4300 by default since CPython 3.11, 0 for no
      limit).
    - An exception is a [Raise] outcome; the translation provider, the
      standard output and the output file are a [Host], the texts sent and
      the lines printed an explicit [world] that every computation
      threads.  A [Provider] is a host that behaves: its failures are
      exceptions the handler catches, its output accepts every line and its
      file can be written. *)

From Stdlib Require Import String Ascii List ZArith Bool Lia Arith.
From Stdlib Require Import DecimalString.
Import ListNotations.
Local Open Scope list_scope.
Local Open Scope string_scope.

(** ** Text *)

Module Text.

Definition LF : ascii := "010"%char.
Definition BAR : ascii := "|"%char.
Definition BACKSLASH : ascii := "\"%char.

Definition nl : string := String LF "".

(** [flat f s] replaces every character [c] of [s] by the text [f c]. *)
Fixpoint flat (f : ascii -> string) (s : string) : string :=
  match s with
  | EmptyString => ""
  | String c s' => f c ++ flat f s'
  end.

(** [str.replace(old, new)]: leftmost, non-overlapping occurrences of [old]
    are replaced, scanning from the left.  [skip] counts the characters of
    a matched occurrence that remain to be dropped. *)
Fixpoint replace_from (old new : string) (skip : nat) (s : string) : string :=
  match s with
  | EmptyString => ""
  | String c s' =>
      match skip with
      | S k => replace_from old new k s'
      | O =>
          if prefix old s
          then new ++ replace_from old new (String.length old - 1) s'
          else String c (replace_from old new 0 s')
      end
  end.

Definition replace (old new s : string) : string :=
  match old with
  | EmptyString => new ++ flat (fun c => String c new) s
  | _ => replace_from old new 0 s
  end.

(** [sep.join(parts)] *)
Definition join (sep : string) (parts : list string) : string :=
  String.concat sep parts.

(** Number of occurrences of a character. *)
Fixpoint count_char (a : ascii) (s : string) : nat :=
  match s with
  | EmptyString => 0
  | String c s' => (if Ascii.eqb c a then 1 else 0) + count_char a s'
  end.

(** Number of (possibly overlapping) occurrences of a text. *)
Fixpoint count_sub (p s : string) : nat :=
  match s with
  | EmptyString => 0
  | String _ s' => (if prefix p s then 1 else 0) + count_sub p s'
  end.

(** *** Whitespace, as [str.strip()] sees it

    The code points Python treats as whitespace, each given by its UTF-8
    bytes: U+0009..U+000D, U+001C..U+0020, U+0085, U+00A0, U+1680,
    U+2000..U+200A, U+2028, U+2029, U+202F, U+205F, U+3000. *)

Definition bytes (l : list nat) : string :=
  string_of_list_ascii (map ascii_of_nat l).

Definition whitespace : list string :=
  map bytes
    [ [9]; [10]; [11]; [12]; [13]; [28]; [29]; [30]; [31]; [32];
      [194; 133]; [194; 160]; [225; 154; 128];
      [226; 128; 128]; [226; 128; 129]; [226; 128; 130]; [226; 128; 131];
      [226; 128; 132]; [226; 128; 133]; [226; 128; 134]; [226; 128; 135];
      [226; 128; 136]; [226; 128; 137]; [226; 128; 138];
      [226; 128; 168]; [226; 128; 169]; [226; 128; 175];
      [226; 129; 159]; [227; 128; 128] ].

(** Drops [n] leading bytes. *)
Fixpoint drop (n : nat) (s : string) : string :=
  match n, s with
  | S k, String _ s' => drop k s'
  | _, _ => s
  end.

(** The rest of [s] after its leading whitespace character, if it has one. *)
Fixpoint after_prefix (cands : list string) (s : string) : option string :=
  match cands with
  | [] => None
  | p :: cands' =>
      if prefix p s then Some (drop (String.length p) s) else after_prefix cands' s
  end.

Fixpoint lstrip_with (ws : list string) (fuel : nat) (s : string) : string :=
  match fuel with
  | O => s
  | S k =>
      match after_prefix ws s with
      | Some rest => lstrip_with ws k rest
      | None => s
      end
  end.

Fixpoint rev (s : string) : string :=
  match s with
  | EmptyString => ""
  | String c s' => rev s' ++ String c ""
  end.

Definition lstrip (s : string) : string :=
  lstrip_with whitespace (String.length s) s.

Definition rstrip (s : string) : string :=
  rev (lstrip_with (map rev whitespace) (String.length s) (rev s)).

(** [text.strip()] *)
Definition strip (s : string) : string := rstrip (lstrip s).

(** A text made of whitespace characters only (possibly none). *)
Inductive whitespace_only : string -> Prop :=
| ws_empty : whitespace_only ""
| ws_more : forall c s, In c whitespace -> whitespace_only s ->
                        whitespace_only (c ++ s).

End Text.
Import Text.

(** ** sanitize_description (source lines 5-6) *)

Definition sanitize_description (text : string) : string :=
  replace "|" "\|" (replace nl "<br>" text).

(** ** Parsed documents *)

#[warnings="-register-all"] Inductive value : Type :=
| VNone
| VBool (b : bool)
| VInt (z : Z)
| VStr (s : string)
| VList (l : list value)
| VDict (d : list (string * value)).

Definition dict : Type := list (string * value).

(** First binding of a key. *)
Fixpoint lookup (d : dict) (k : string) : option value :=
  match d with
  | [] => None
  | (k', v) :: d' => if String.eqb k' k then Some v else lookup d' k
  end.

(** Truth value of an object in a condition. *)
Definition truthy (v : value) : bool :=
  match v with
  | VNone => false
  | VBool b => b
  | VInt z => negb (Z.eqb z 0)
  | VStr s => negb (String.eqb s "")
  | VList l => match l with [] => false | _ => true end
  | VDict d => match d with [] => false | _ => true end
  end.

(** What the interpreter supplies and the program does not define:
    [repr] of a str, used when a list or a dict is turned into text, and
    the largest number of digits [str()] accepts for an int
    ([sys.get_int_max_str_digits()]; 0 means no limit). *)
Class Runtime : Type :=
  { repr_text : string -> string;
    max_str_digits : nat }.

Definition str_of_int (z : Z) : string := NilZero.string_of_int (Z.to_int z).

Fixpoint py_repr `{Runtime} (v : value) : string :=
  match v with
  | VNone => "None"
  | VBool true => "True"
  | VBool false => "False"
  | VInt z => str_of_int z
  | VStr s => repr_text s
  | VList l => "[" ++ join ", " (map py_repr l) ++ "]"
  | VDict d =>
      "{" ++ join ", "
               (map (fun kv : string * value =>
                       let (k, x) := kv in repr_text k ++ ": " ++ py_repr x)
                    d) ++ "}"
  end.

(** The text [str(v)] returns when it returns one; an f-string puts the
    same text in place of [{v}]. *)
Definition py_str `{Runtime} (v : value) : string :=
  match v with
  | VStr s => s
  | _ => py_repr v
  end.

(** An int whose decimal digits are within the limit of the interpreter. *)
Definition int_fits `{Runtime} (z : Z) : bool :=
  match max_str_digits with
  | O => true
  | n => Z.ltb (Z.abs z) (10 ^ Z.of_nat n)
  end.

(** A value every int of which, at any depth, can be turned into text. *)
Fixpoint printable `{Runtime} (v : value) : bool :=
  match v with
  | VInt z => int_fits z
  | VList l => forallb printable l
  | VDict d =>
      forallb (fun kv : string * value => let (_, x) := kv in printable x) d
  | _ => true
  end.

(** The characters of a str: each lead byte with its continuation bytes. *)
Definition is_continuation (c : ascii) : bool :=
  let n := nat_of_ascii c in Nat.leb 128 n && Nat.leb n 191.

Fixpoint chars (s : string) : list string :=
  match s with
  | EmptyString => []
  | String c s' =>
      match chars s' with
      | String c' r :: rs =>
          if is_continuation c' then String c (String c' r) :: rs
          else String c "" :: String c' r :: rs
      | rs => String c "" :: rs
      end
  end.

(** ** Exceptions, the provider and the diagnostic stream *)

(** [OtherException] stands for any other class derived from [Exception]
    (the errors of the provider, of the network, of a failed import). *)
Inductive exn : Type :=
| AttributeError
| TypeError
| KeyError
| ValueError
| UnicodeEncodeError
| OtherException
| KeyboardInterrupt
| SystemExit.

(** [isinstance(e, Exception)]: what [except Exception] catches. *)
Definition caught (e : exn) : bool :=
  match e with
  | KeyboardInterrupt | SystemExit => false
  | _ => true
  end.

Inductive result (A : Type) : Type :=
| Ok (a : A)
| Raise (e : exn).
Arguments Ok {A} a.
Arguments Raise {A} e.

(** [sent]: the texts handed to the provider so far, oldest first;
    [diag]: the lines printed on the diagnostic stream, oldest first. *)
Record world : Type := World { sent : list string; diag : list string }.

(** What importing and calling the provider ends in: the translation, or
    an exception [e] whose text [str(e)] is [message]. *)
Inductive outcome : Type :=
| Returns (ru : string)
| Raises (e : exn) (message : string).

(** The surroundings of a run.  [provider_call history text]: what the
    provider does with [text] after having been asked [history];
    [print_error printed line]: the exception [print(line)] raises after
    [printed], if it raises one (an output that cannot encode the line, a
    closed pipe); [write_error path text]: the exception that opening
    [path] and writing [text] to it raises, if it raises one. *)
Class Host : Type :=
  { provider_call : list string -> string -> outcome;
    print_error : list string -> string -> option exn;
    write_error : string -> string -> option exn }.

Inductive provider_result : Type :=
| Translated (ru : string)
| Failed (message : string).

(** A provider that answers or fails with an exception derived from
    [Exception], its answer depending on the text and on everything it was
    asked before.  It stands for the host in which, besides, every line
    can be printed and every file written. *)
Class Provider : Type :=
  { translate : list string -> string -> provider_result }.

#[global] Instance host_of_provider (PV : Provider) : Host :=
  {| provider_call history text :=
       match translate history text with
       | Translated ru => Returns ru
       | Failed message => Raises OtherException message
       end;
     print_error _ _ := None;
     write_error _ _ := None |}.

Definition M (A : Type) : Type := world -> result A * world.

Definition ret {A} (a : A) : M A := fun w => (Ok a, w).

Definition raise {A} (e : exn) : M A := fun w => (Raise e, w).

Definition bind {A B} (m : M A) (k : A -> M B) : M B :=
  fun w =>
    match m w with
    | (Ok a, w') => k a w'
    | (Raise e, w') => (Raise e, w')
    end.

Declare Scope py_scope.
Delimit Scope py_scope with py.
Notation "x <- m ;; k" := (bind m (fun x => k))
  (at level 61, m at next level, right associativity) : py_scope.
Notation "m ;;; k" := (bind m (fun _ => k))
  (at level 61, right associativity) : py_scope.
Local Open Scope py_scope.

(** [for x in l: s = body(s, x)] *)
Fixpoint for_each {A S : Type} (l : list A) (body : S -> A -> M S) (s : S)
  : M S :=
  match l with
  | [] => ret s
  | x :: l' => s' <- body s x ;; for_each l' body s'
  end.

(** [[f(x) for x in l]] *)
Fixpoint comprehension {A B : Type} (f : A -> M B) (l : list A) : M (list B) :=
  match l with
  | [] => ret []
  | x :: l' => y <- f x ;; ys <- comprehension f l' ;; ret (y :: ys)
  end.

(** [print(line)] *)
Definition print `{Host} (line : string) : M unit :=
  fun w =>
    match print_error (diag w) line with
    | None => (Ok tt, {| sent := sent w; diag := diag w ++ [line] |})
    | Some e => (Raise e, w)
    end.

(** [with open(path, 'w', encoding='utf-8') as f: f.write(text)]: the
    file system is not part of the world; what is written is the text. *)
Definition write_file `{Host} (path text : string) : M unit :=
  fun w =>
    match write_error path text with
    | None => (Ok tt, w)
    | Some e => (Raise e, w)
    end.

(** The import of the provider and the call to it, inside the [try]
    block. *)
Definition ask_provider `{Host} (text : string) : M outcome :=
  fun w => (Ok (provider_call (sent w) text),
            {| sent := sent w ++ [text]; diag := diag w |}).

(** [str(v)] *)
Definition str `{Runtime} (v : value) : M string :=
  if printable v then ret (py_str v) else raise ValueError.

(** [v.get(k, default)] *)
Definition get (v : value) (k : string) (default : value) : M value :=
  match v with
  | VDict d => ret (match lookup d k with Some x => x | None => default end)
  | _ => raise AttributeError
  end.

(** [v[k]] with a str key *)
Definition subscript (v : value) (k : string) : M value :=
  match v with
  | VDict d => match lookup d k with Some x => ret x | None => raise KeyError end
  | _ => raise TypeError
  end.

(** The receiver of a str method such as [.strip()] or [.replace()]. *)
Definition str_method (v : value) : M string :=
  match v with
  | VStr s => ret s
  | _ => raise AttributeError
  end.

(** The elements a [for] loop visits. *)
Definition iter (v : value) : M (list value) :=
  match v with
  | VList l => ret l
  | VStr s => ret (map VStr (chars s))
  | VDict d => ret (map (fun kv => VStr (fst kv)) d)
  | _ => raise TypeError
  end.

(** ** The program *)

Section Program.
Context `{RT : Runtime} `{HO : Host}.

(** dual_description (source lines 8-18).  The test
    [not do_translate or not text.strip()] short-circuits, so [.strip()] is
    only looked up when the flag is on.  [except Exception] catches the
    exceptions derived from [Exception]; any other goes on to the caller,
    and so does an exception raised by the [print] of the handler. *)
Definition dual_description (text : value) (do_translate : bool) : M value :=
  if negb do_translate then ret text
  else
    t <- str_method text ;;
    if negb (truthy (VStr (strip t))) then ret text
    else
      answer <- ask_provider t ;;
      match answer with
      | Returns ru => ret (VStr (ru ++ "<br><i>" ++ t ++ "</i>"))
      | Raises e message =>
          if caught e
          then print ("Ошибка перевода: " ++ message) ;;; ret text
          else raise e
      end.

(** markdown_table (source lines 20-26) *)
Definition markdown_table (headers : list string) (rows : list (list value))
  : M string :=
  let table := "| " ++ join " | " headers ++ " |" ++ nl in
  let table :=
    table ++ "| " ++ join " | " (repeat "---" (List.length headers))
          ++ " |" ++ nl in
  for_each rows
    (fun table row =>
       row <- comprehension
                (fun cell => text <- str cell ;;
                             ret (sanitize_description text))
                row ;;
       ret (table ++ "| " ++ join " | " row ++ " |" ++ nl))
    table.

(** extract_items (source lines 32-43) *)
Definition extract_items (template : value) (do_translate : bool)
  : M (list value) :=
  coll <- get template "items" (VList []) ;;
  its <- iter coll ;;
  for_each its
    (fun items item =>
       name <- get item "name" (VStr "") ;;
       key <- get item "key" (VStr "") ;;
       type <- get item "type" (VStr "") ;;
       value_type <- get item "value_type" (VStr "") ;;
       units <- get item "units" (VStr "") ;;
       d <- get item "description" (VStr "") ;;
       description <- dual_description d do_translate ;;
       ret (items ++ [VDict [("name", name); ("key", key); ("type", type);
                             ("value_type", value_type); ("units", units);
                             ("description", description)]])%list)
    [].

(** extract_macros (source lines 45-53) *)
Definition extract_macros (template : value) (do_translate : bool)
  : M (list value) :=
  coll <- get template "macros" (VList []) ;;
  ms <- iter coll ;;
  for_each ms
    (fun macros m =>
       macro <- get m "macro" (VStr "") ;;
       val <- get m "value" (VStr "") ;;
       d <- get m "description" (VStr "") ;;
       description <- dual_description d do_translate ;;
       ret (macros ++ [VDict [("macro", macro); ("value", val);
                              ("description", description)]])%list)
    [].

(** extract_triggers (source lines 55-72) *)
Definition extract_triggers (template : value) (do_translate : bool)
  : M (list value) :=
  coll <- get template "items" (VList []) ;;
  its <- iter coll ;;
  triggers <-
    for_each its
      (fun triggers item =>
         nested <- get item "triggers" (VList []) ;;
         trs <- iter nested ;;
         for_each trs
           (fun triggers trigger =>
              name <- get trigger "name" (VStr "") ;;
              expression <- get trigger "expression" (VStr "") ;;
              priority <- get trigger "priority" (VStr "") ;;
              d <- get trigger "description" (VStr "") ;;
              description <- dual_description d do_translate ;;
              ret (triggers ++ [VDict [("name", name);
                                       ("expression", expression);
                                       ("priority", priority);
                                       ("description", description)]])%list)
           triggers)
      [] ;;
  own <- get template "triggers" (VList []) ;;
  trs <- iter own ;;
  for_each trs
    (fun triggers trig =>
       name <- get trig "name" (VStr "") ;;
       expression <- get trig "expression" (VStr "") ;;
       priority <- get trig "priority" (VStr "") ;;
       d <- get trig "description" (VStr "") ;;
       description <- dual_description d do_translate ;;
       ret (triggers ++ [VDict [("name", name); ("expression", expression);
                                ("priority", priority);
                                ("description", description)]])%list)
    triggers.

(** extract_discovery_rules (source lines 74-82) *)
Definition extract_discovery_rules (template : value) (do_translate : bool)
  : M (list value) :=
  coll <- get template "discovery_rules" (VList []) ;;
  ds <- iter coll ;;
  for_each ds
    (fun drules d =>
       name <- get d "name" (VStr "") ;;
       key <- get d "key" (VStr "") ;;
       desc <- get d "description" (VStr "") ;;
       description <- dual_description desc do_translate ;;
       ret (drules ++ [VDict [("name", name); ("key", key);
                              ("description", description)]])%list)
    [].

(** The header lists written out in [main]. *)
Definition item_headers : list string :=
  ["Name"; "Key"; "Type"; "Value type"; "Units"; "Description"].
Definition trigger_headers : list string :=
  ["Name"; "Expression"; "Priority"; "Description"].
Definition macro_headers : list string := ["Macro"; "Value"; "Description"].
Definition rule_headers : list string := ["Name"; "Key"; "Description"].

(** main, the body of [for tpl in templates] (source lines 105-159), one
    definition per block; every block receives [md_output] and returns it,
    extended or not. *)

(** lines 105-108: the title and the description paragraph *)
Definition emit_heading (tpl : value) (do_translate : bool)
    (md_output : string) : M string :=
  title <- get tpl "template" (VStr "") ;;
  title <- str title ;;
  let md_output := md_output ++ "# Template: " ++ title ++ nl ++ nl in
  d <- get tpl "description" (VStr "") ;;
  description <- str_method d ;;
  let description := strip description in
  if truthy (VStr description) then
    dd <- dual_description (VStr description) do_translate ;;
    text <- str_method dd ;;
    ret (md_output ++ sanitize_description text ++ nl ++ nl)
  else ret md_output.

(** line 114: the rows of the Items table *)
Definition item_rows (items : list value) : M (list (list value)) :=
  comprehension
    (fun i =>
       name <- subscript i "name" ;;
       key <- subscript i "key" ;;
       type <- subscript i "type" ;;
       type <- str type ;;
       value_type <- subscript i "value_type" ;;
       value_type <- str value_type ;;
       units <- subscript i "units" ;;
       description <- subscript i "description" ;;
       ret [name; key; VStr type; VStr value_type; units; description])
    items.

(** lines 110-115 *)
Definition emit_items (tpl : value) (do_translate : bool)
    (md_output : string) : M string :=
  items <- extract_items tpl do_translate ;;
  if truthy (VList items) then
    let md_output := md_output ++ "## Items" ++ nl ++ nl in
    let headers := item_headers in
    rows <- item_rows items ;;
    table <- markdown_table headers rows ;;
    ret (md_output ++ table ++ nl ++ nl)
  else ret md_output.

(** line 121: the rows of the Triggers table *)
Definition trigger_rows (triggers : list value) : M (list (list value)) :=
  comprehension
    (fun t =>
       name <- subscript t "name" ;;
       expression <- subscript t "expression" ;;
       priority <- subscript t "priority" ;;
       description <- subscript t "description" ;;
       ret [name; expression; priority; description])
    triggers.

(** lines 117-122 *)
Definition emit_triggers (tpl : value) (do_translate : bool)
    (md_output : string) : M string :=
  triggers <- extract_triggers tpl do_translate ;;
  if truthy (VList triggers) then
    let md_output := md_output ++ "## Triggers" ++ nl ++ nl in
    let headers := trigger_headers in
    rows <- trigger_rows triggers ;;
    table <- markdown_table headers rows ;;
    ret (md_output ++ table ++ nl ++ nl)
  else ret md_output.

(** line 128: the rows of the Macros table *)
Definition macro_rows (macros : list value) : M (list (list value)) :=
  comprehension
    (fun m =>
       macro <- get m "macro" (VStr "") ;;
       val <- get m "value" (VStr "") ;;
       description <- get m "description" (VStr "") ;;
       ret [macro; val; description])
    macros.

(** lines 124-129 *)
Definition emit_macros (tpl : value) (do_translate : bool)
    (md_output : string) : M string :=
  macros <- extract_macros tpl do_translate ;;
  if truthy (VList macros) then
    let md_output := md_output ++ "## Macros" ++ nl ++ nl in
    let headers := macro_headers in
    rows <- macro_rows macros ;;
    table <- markdown_table headers rows ;;
    ret (md_output ++ table ++ nl ++ nl)
  else ret md_output.

(** lines 142-152: the rows of the Item prototypes table of a rule *)
Definition item_prototype_rows (item_protos : list value)
    (do_translate : bool) : M (list (list value)) :=
  comprehension
    (fun ip =>
       name <- get ip "name" (VStr "") ;;
       key <- get ip "key" (VStr "") ;;
       type <- get ip "type" (VStr "") ;;
       type <- str type ;;
       value_type <- get ip "value_type" (VStr "") ;;
       value_type <- str value_type ;;
       units <- get ip "units" (VStr "") ;;
       d <- get ip "description" (VStr "") ;;
       description <- dual_description d do_translate ;;
       ret [name; key; VStr type; VStr value_type; units; description])
    item_protos.

(** lines 138-153, for one discovery rule *)
Definition emit_item_prototypes (dr : value) (do_translate : bool)
    (md_output : string) : M string :=
  item_protos <- get dr "item_prototypes" (VList []) ;;
  if truthy item_protos then
    name <- get dr "name" VNone ;;
    name <- str name ;;
    let md_output :=
      md_output ++ "### Item prototypes for discovery: " ++ name
                ++ nl ++ nl in
    let headers := item_headers in
    ips <- iter item_protos ;;
    rows <- item_prototype_rows ips do_translate ;;
    table <- markdown_table headers rows ;;
    ret (md_output ++ table ++ nl ++ nl)
  else ret md_output.

(** line 158: the rows of the Trigger prototypes table of a rule *)
Definition trigger_prototype_rows (trigger_protos : list value)
    (do_translate : bool) : M (list (list value)) :=
  comprehension
    (fun tp =>
       name <- get tp "name" (VStr "") ;;
       expression <- get tp "expression" (VStr "") ;;
       priority <- get tp "priority" (VStr "") ;;
       d <- get tp "description" (VStr "") ;;
       description <- dual_description d do_translate ;;
       ret [name; expression; priority; description])
    trigger_protos.

(** lines 154-159, for one discovery rule *)
Definition emit_trigger_prototypes (dr : value) (do_translate : bool)
    (md_output : string) : M string :=
  trigger_protos <- get dr "trigger_prototypes" (VList []) ;;
  if truthy trigger_protos then
    name <- get dr "name" VNone ;;
    name <- str name ;;
    let md_output :=
      md_output ++ "### Trigger prototypes for discovery: " ++ name
                ++ nl ++ nl in
    let headers := trigger_headers in
    tps <- iter trigger_protos ;;
    rows <- trigger_prototype_rows tps do_translate ;;
    table <- markdown_table headers rows ;;
    ret (md_output ++ table ++ nl ++ nl)
  else ret md_output.

(** line 135: the rows of the Discovery rules table *)
Definition rule_rows (discovery_rules : list value) : M (list (list value)) :=
  comprehension
    (fun d =>
       name <- get d "name" (VStr "") ;;
       key <- get d "key" (VStr "") ;;
       description <- get d "description" (VStr "") ;;
       ret [name; key; description])
    discovery_rules.

(** lines 131-159 *)
Definition emit_discovery_rules (tpl : value) (do_translate : bool)
    (md_output : string) : M string :=
  discovery_rules <- extract_discovery_rules tpl do_translate ;;
  if truthy (VList discovery_rules) then
    let md_output := md_output ++ "## Discovery rules" ++ nl ++ nl in
    let headers := rule_headers in
    rows <- rule_rows discovery_rules ;;
    table <- markdown_table headers rows ;;
    let md_output := md_output ++ table ++ nl ++ nl in
    coll <- get tpl "discovery_rules" (VList []) ;;
    drs <- iter coll ;;
    for_each drs
      (fun md_output dr =>
         md_output <- emit_item_prototypes dr do_translate md_output ;;
         emit_trigger_prototypes dr do_translate md_output)
      md_output
  else ret md_output.

(** One pass of the loop over the templates. *)
Definition emit_template (do_translate : bool) (md_output : string)
    (tpl : value) : M string :=
  md_output <- emit_heading tpl do_translate md_output ;;
  md_output <- emit_items tpl do_translate md_output ;;
  md_output <- emit_triggers tpl do_translate md_output ;;
  md_output <- emit_macros tpl do_translate md_output ;;
  emit_discovery_rules tpl do_translate md_output.

(** main from the loaded document to the end of the loop (source lines
    102-159): the text that lines 160-161 then write to the output file.
    The arguments, the loading and the closing message of line 162 are not
    part of it. *)
Definition main (data : value) (do_translate : bool) : M string :=
  export <- get data "zabbix_export" (VDict []) ;;
  coll <- get export "templates" (VList []) ;;
  templates <- iter coll ;;
  for_each templates (emit_template do_translate) "".

(** main from the loaded document to its end (source lines 102-162): the
    text is assembled, written to the output file and the closing message
    is printed.  The value returned is the text the file then holds. *)
Definition run (data : value) (do_translate : bool) (output_md : string)
  : M string :=
  md_output <- main data do_translate ;;
  write_file output_md md_output ;;;
  print ("Документация сохранена в " ++ output_md) ;;;
  ret md_output.

End Program.

(** ** Sample hosts and documents, used to run the definitions *)

(** A runtime whose [repr] of a str puts it between single quotes (what
    Python does for printable text without quotes or backslashes). *)
Definition quoting_runtime : Runtime :=
  {| repr_text s := "'" ++ s ++ "'"; max_str_digits := 4300 |}.

(** A provider that is down, and one that answers. *)
Definition failing_provider : Provider :=
  {| translate _ _ := Failed "timeout" |}.
Definition upper_provider : Provider :=
  {| translate _ t := Translated ("RU:" ++ t) |}.

(** A host whose provider is interrupted from the keyboard, and a host
    whose provider times out while the output cannot encode Cyrillic. *)
Definition interrupted_host : Host :=
  {| provider_call _ _ := Raises KeyboardInterrupt "";
     print_error _ _ := None;
     write_error _ _ := None |}.
Definition ascii_output_host : Host :=
  {| provider_call _ _ := Raises OtherException "timeout";
     print_error _ _ := Some UnicodeEncodeError;
     write_error _ _ := None |}.

Definition w0 : world := {| sent := []; diag := [] |}.

Definition sample_template : value :=
  VDict
    [("template", VStr "Linux");
     ("description", VStr (" Base" ++ nl ++ "OS | agent "));
     ("items",
      VList [VDict [("name", VStr "CPU"); ("key", VStr "cpu.load");
                    ("type", VInt 0); ("value_type", VStr "FLOAT");
                    ("triggers",
                     VList [VDict [("name", VStr "High load");
                                   ("expression", VStr "a|b");
                                   ("priority", VStr "HIGH")]])]]);
     ("triggers",
      VList [VDict [("name", VStr "Host down"); ("priority", VStr "DISASTER")]]);
     ("discovery_rules",
      VList [VDict [("name", VStr "FS"); ("key", VStr "vfs.fs.discovery");
                    ("item_prototypes",
                     VList [VDict [("name", VStr "Free"); ("type", VInt 7)];
                            VDict [("name", VStr "Used")]])]])].

Definition sample_document : value :=
  VDict [("zabbix_export", VDict [("templates", VList [sample_template])])].

(** ** Vocabulary of the statements *)

(** What the sanitizer does to one character. *)
Definition sanitize_char (c : ascii) : string :=
  if Ascii.eqb c LF then "<br>"
  else if Ascii.eqb c BAR then "\|"
  else String c "".

(** Bars that are not immediately preceded by a backslash; [prev] tells
    whether the character before the text is a backslash. *)
Fixpoint unescaped_bars_from (prev : bool) (s : string) : nat :=
  match s with
  | EmptyString => 0
  | String c s' =>
      (if Ascii.eqb c BAR && negb prev then 1 else 0)
      + unescaped_bars_from (Ascii.eqb c BACKSLASH) s'
  end.

Definition unescaped_bars (s : string) : nat := unescaped_bars_from false s.

(** Every bar has a backslash right before it and none before that one.
    [b1], [b2]: whether the previous character, and the one before it, is a
    backslash. *)
Fixpoint escaped_once_from (b1 b2 : bool) (s : string) : bool :=
  match s with
  | EmptyString => true
  | String c s' =>
      (if Ascii.eqb c BAR then b1 && negb b2 else true)
      && escaped_once_from (Ascii.eqb c BACKSLASH) b1 s'
  end.

Definition escaped_once (s : string) : bool := escaped_once_from false false s.

(** Characters the sanitizer neither looks for nor writes first. *)
Definition plain (c : ascii) : Prop :=
  c <> LF /\ c <> BAR /\ c <> "<"%char /\ c <> BACKSLASH.

(** The texts of a list, one after the other. *)
Definition cat (l : list string) : string := fold_right append "" l.

(** The three kinds of rows of a rendered table. *)
Definition header_row (headers : list string) : string :=
  "| " ++ join " | " headers ++ " |" ++ nl.

Definition separator_row (columns : nat) : string :=
  "| " ++ join " | " (repeat "---" columns) ++ " |" ++ nl.

Definition table_row `{Runtime} (row : list value) : string :=
  "| " ++ join " | " (map (fun cell => sanitize_description (py_str cell)) row)
       ++ " |" ++ nl.

(** The text of a table: header row, separator row, one row per record. *)
Definition table_text `{Runtime} (headers : list string)
    (rows : list (list value)) : string :=
  header_row headers ++ separator_row (List.length headers)
    ++ cat (map table_row rows).

(** Rows every cell of which can be turned into text. *)
Definition printable_rows `{Runtime} (rows : list (list value)) : bool :=
  forallb (forallb printable) rows.

(** A computation that returns a value satisfying [P], whatever the world
    it starts in. *)
Definition succeeds {A : Type} (m : M A) (P : A -> Prop) : Prop :=
  forall w, exists a w', m w = (Ok a, w') /\ P a.

(** Two computations that leave the world alone and have the same
    outcome, be it a value or an exception. *)
Definition agree {A : Type} (m1 m2 : M A) : Prop :=
  exists r, (forall w, m1 w = (r, w)) /\ (forall w, m2 w = (r, w)).

(** ** Reading a parsed document without effects *)

Definition is_dict (v : value) : bool :=
  match v with VDict _ => true | _ => false end.

Definition is_text (v : value) : bool :=
  match v with VStr _ => true | _ => false end.

(** The value under a key, or [default] when the key is absent. *)
Definition field (v : value) (k : string) (default : value) : value :=
  match v with
  | VDict d => match lookup d k with Some x => x | None => default end
  | _ => default
  end.

Definition has_key (v : value) (k : string) : bool :=
  match v with
  | VDict d => match lookup d k with Some _ => true | None => false end
  | _ => false
  end.

(** The elements of a collection, none when it is absent. *)
Definition entries (v : value) (k : string) : list value :=
  match field v k (VList []) with
  | VList l => l
  | _ => []
  end.

(** Every trigger of a template in the order of the extractor: those nested
    in the items, item after item, then the template's own. *)
Definition trigger_occurrences (tpl : value) : list value :=
  (flat_map (fun item => entries item "triggers") (entries tpl "items")
   ++ entries tpl "triggers")%list.

(** ** Documents whose present parts have the expected type

    Nothing below asks for a key to be present: a collection, when present,
    is a list of mappings, and a description that reaches [.strip()] is a
    str. *)

Definition describable (flag : bool) (v : value) : bool :=
  negb flag || is_text v.

Definition shaped_entry (flag : bool) (e : value) : bool :=
  is_dict e && describable flag (field e "description" (VStr "")).

Definition all_entries (p : value -> bool) (v : value) (k : string) : bool :=
  match field v k (VList []) with
  | VList l => forallb p l
  | _ => false
  end.

Definition has_triggers (flag : bool) (item : value) : bool :=
  is_dict item && all_entries (shaped_entry flag) item "triggers".

Definition shaped_item (flag : bool) (item : value) : bool :=
  shaped_entry flag item && has_triggers flag item.

Definition shaped_rule (flag : bool) (dr : value) : bool :=
  shaped_entry flag dr
  && all_entries (shaped_entry flag) dr "item_prototypes"
  && all_entries (shaped_entry flag) dr "trigger_prototypes".

Definition shaped_template (flag : bool) (tpl : value) : bool :=
  is_dict tpl
  && is_text (field tpl "description" (VStr ""))
  && all_entries (shaped_item flag) tpl "items"
  && all_entries (shaped_entry flag) tpl "triggers"
  && all_entries (shaped_entry flag) tpl "macros"
  && all_entries (shaped_rule flag) tpl "discovery_rules".

Definition shaped_document (flag : bool) (data : value) : bool :=
  is_dict data
  && is_dict (field data "zabbix_export" (VDict []))
  && all_entries (shaped_template flag)
       (field data "zabbix_export" (VDict [])) "templates".

(** ** What the extractors and the assembler produce *)

(** [desc] is what the augmenter may return for [d]: [d] itself, or, with
    the flag on and a text that is not blank, a translation, the marker and
    the original in italics. *)
Definition augmented (flag : bool) (d desc : value) : Prop :=
  desc = d
  \/ (flag = true
      /\ exists t ru, d = VStr t /\ strip t <> ""
                      /\ desc = VStr (ru ++ "<br><i>" ++ t ++ "</i>")).

Definition item_record_of (flag : bool) (item rec : value) : Prop :=
  exists desc,
    augmented flag (field item "description" (VStr "")) desc
    /\ rec = VDict [("name", field item "name" (VStr ""));
                    ("key", field item "key" (VStr ""));
                    ("type", field item "type" (VStr ""));
                    ("value_type", field item "value_type" (VStr ""));
                    ("units", field item "units" (VStr ""));
                    ("description", desc)].

Definition trigger_record_of (flag : bool) (trigger rec : value) : Prop :=
  exists desc,
    augmented flag (field trigger "description" (VStr "")) desc
    /\ rec = VDict [("name", field trigger "name" (VStr ""));
                    ("expression", field trigger "expression" (VStr ""));
                    ("priority", field trigger "priority" (VStr ""));
                    ("description", desc)].

Definition macro_record_of (flag : bool) (m rec : value) : Prop :=
  exists desc,
    augmented flag (field m "description" (VStr "")) desc
    /\ rec = VDict [("macro", field m "macro" (VStr ""));
                    ("value", field m "value" (VStr ""));
                    ("description", desc)].

Definition rule_record_of (flag : bool) (d rec : value) : Prop :=
  exists desc,
    augmented flag (field d "description" (VStr "")) desc
    /\ rec = VDict [("name", field d "name" (VStr ""));
                    ("key", field d "key" (VStr ""));
                    ("description", desc)].

(** The cells the assembler hands to the renderer for one record. *)
Definition item_cells `{Runtime} (rec : value) : list value :=
  [field rec "name" VNone; field rec "key" VNone;
   VStr (py_str (field rec "type" VNone));
   VStr (py_str (field rec "value_type" VNone));
   field rec "units" VNone; field rec "description" VNone].

Definition trigger_cells (rec : value) : list value :=
  [field rec "name" VNone; field rec "expression" VNone;
   field rec "priority" VNone; field rec "description" VNone].

Definition macro_cells (rec : value) : list value :=
  [field rec "macro" VNone; field rec "value" VNone;
   field rec "description" VNone].

Definition rule_cells (rec : value) : list value :=
  [field rec "name" VNone; field rec "key" VNone;
   field rec "description" VNone].

(** A section of the document: nothing at all without rows, else the
    heading, a blank line, the table and two blank lines. *)
Definition section `{Runtime} (heading : string) (headers : list string)
    (rows : list (list value)) : string :=
  match rows with
  | [] => ""
  | _ => heading ++ nl ++ nl ++ table_text headers rows ++ nl ++ nl
  end.

(** The rows the assembler builds for the prototypes of a discovery rule. *)
Definition item_prototype_row_of `{Runtime} (flag : bool) (ip : value)
    (row : list value) : Prop :=
  exists desc,
    augmented flag (field ip "description" (VStr "")) desc
    /\ row = [field ip "name" (VStr ""); field ip "key" (VStr "");
              VStr (py_str (field ip "type" (VStr "")));
              VStr (py_str (field ip "value_type" (VStr "")));
              field ip "units" (VStr ""); desc].

Definition trigger_prototype_row_of (flag : bool) (tp : value)
    (row : list value) : Prop :=
  exists desc,
    augmented flag (field tp "description" (VStr "")) desc
    /\ row = [field tp "name" (VStr ""); field tp "expression" (VStr "");
              field tp "priority" (VStr ""); desc].

(** The two subsections of one discovery rule. *)
Definition prototypes_of `{Runtime} (flag : bool) (dr : value) (text : string)
  : Prop :=
  exists irows trows,
    Forall2 (item_prototype_row_of flag) (entries dr "item_prototypes") irows
    /\ Forall2 (trigger_prototype_row_of flag)
         (entries dr "trigger_prototypes") trows
    /\ text
       = section ("### Item prototypes for discovery: "
                    ++ py_str (field dr "name" VNone)) item_headers irows
         ++ section ("### Trigger prototypes for discovery: "
                       ++ py_str (field dr "name" VNone)) trigger_headers trows.

(** The description paragraph: nothing for a blank description, else the
    stripped description, augmented, sanitized and followed by a blank
    line. *)
Definition paragraph_of (flag : bool) (tpl : value) (par : string) : Prop :=
  exists s,
    field tpl "description" (VStr "") = VStr s
    /\ ((strip s = "" /\ par = "")
        \/ (strip s <> ""
            /\ exists dd, augmented flag (VStr (strip s)) (VStr dd)
                          /\ par = sanitize_description dd ++ nl ++ nl)).

(** The text of one template: title, paragraph, then the sections in their
    fixed order, each built from the records of its entries. *)
Definition template_rendering `{Runtime} (flag : bool) (tpl : value)
    (text : string) : Prop :=
  exists par items triggers macros rules parts,
    paragraph_of flag tpl par
    /\ Forall2 (item_record_of flag) (entries tpl "items") items
    /\ Forall2 (trigger_record_of flag) (trigger_occurrences tpl) triggers
    /\ Forall2 (macro_record_of flag) (entries tpl "macros") macros
    /\ Forall2 (rule_record_of flag) (entries tpl "discovery_rules") rules
    /\ Forall2 (prototypes_of flag) (entries tpl "discovery_rules") parts
    /\ text
       = "# Template: " ++ py_str (field tpl "template" (VStr "")) ++ nl ++ nl
         ++ par
         ++ section "## Items" item_headers (map item_cells items)
         ++ section "## Triggers" trigger_headers (map trigger_cells triggers)
         ++ section "## Macros" macro_headers (map macro_cells macros)
         ++ section "## Discovery rules" rule_headers (map rule_cells rules)
         ++ cat parts.

(** The keys each extractor copies into its records. *)
Definition item_keys : list string :=
  ["name"; "key"; "type"; "value_type"; "units"; "description"].
Definition trigger_keys : list string :=
  ["name"; "expression"; "priority"; "description"].
Definition macro_keys : list string := ["macro"; "value"; "description"].
Definition rule_keys : list string := ["name"; "key"; "description"].

(** Every key of [keys] that the entry lacks is empty text in the record. *)
Definition blanks_for_absent (keys : list string) (entry rec : value) : Prop :=
  forall k, In k keys -> has_key entry k = false -> field rec k VNone = VStr "".

(** The same for a row built straight from an entry: the cell at the
    position of every key the entry lacks is empty text. *)
Definition blank_cells_for_absent (keys : list string) (entry : value)
    (row : list value) : Prop :=
  forall i k, nth_error keys i = Some k -> has_key entry k = false ->
              nth_error row i = Some (VStr "").

(** The Type and Value type cells of a row hold the text [str()] makes of
    what the entry has under [type] and [value_type]. *)
Definition coerced_type_cells `{Runtime} (entry : value) (row : list value)
  : Prop :=
  nth_error row 2 = Some (VStr (py_str (field entry "type" (VStr ""))))
  /\ nth_error row 3
     = Some (VStr (py_str (field entry "value_type" (VStr "")))).

(** A template with one trigger nested in an item and one of its own. *)
Definition two_trigger_template : value :=
  VDict
    [("template", VStr "Linux");
     ("items",
      VList [VDict [("name", VStr "CPU");
                    ("triggers", VList [VDict [("name", VStr "High load")]])]]);
     ("triggers", VList [VDict [("name", VStr "Host down")]])].

(** A template without items, triggers, macros or discovery rules. *)
Definition bare_template : value :=
  VDict [("template", VStr "Empty");
         ("description", VStr "  nothing | here ");
         ("items", VList [])].

(** A document in which every entry lacks every field. *)
Definition sparse_document : value :=
  VDict
    [("zabbix_export",
      VDict
        [("templates",
          VList
            [VDict
               [("items", VList [VDict []]);
                ("triggers", VList [VDict []]);
                ("macros", VList [VDict []]);
                ("discovery_rules",
                 VList [VDict [("item_prototypes", VList [VDict []]);
                               ("trigger_prototypes", VList [VDict []])]])]])])].

(** A template whose only item has a numeric type. *)
Definition numeric_type_template : value :=
  VDict [("items", VList [VDict [("name", VStr "CPU"); ("type", VInt 3)]])].

(** A template with one macro that has a name only. *)
Definition sparse_template : value :=
  VDict [("macros", VList [VDict [("macro", VStr "{$LIMIT}")]; VDict []])].

(** Objects a [for] loop cannot iterate over. *)
Definition not_iterable (v : value) : bool :=
  match v with
  | VNone | VBool _ | VInt _ => true
  | _ => false
  end.

(** A str or a mapping that is not empty: iterable, but its elements are
    characters or keys, not mappings. *)
Definition iterates_over_text (v : value) : bool :=
  match v with
  | VStr s => negb (String.eqb s "")
  | VDict (_ :: _) => true
  | _ => false
  end.

(** The document that holds the given templates. *)
Definition document (templates : list value) : value :=
  VDict [("zabbix_export", VDict [("templates", VList templates)])].

(** [md] put in front of the text a computation returned. *)
Definition prefixed (md : string) (r : result string * world)
  : result string * world :=
  match r with
  | (Ok s, w) => (Ok (md ++ s), w)
  | (Raise e, w) => (Raise e, w)
  end.

(** A computation that keeps a property of the world. *)
Definition preserves (I : world -> Prop) {A : Type} (m : M A) : Prop :=
  forall w, I w -> I (snd (m w)).

(** Whenever the first computation returns a value, the second returns the
    same value, in whatever worlds the two start. *)
Definition falls_back {A : Type} (m_on m_off : M A) : Prop :=
  forall w1 w2 a w1', m_on w1 = (Ok a, w1') -> fst (m_off w2) = Ok a.

(** A host whose provider raises, on every call, an exception that
    [except Exception] catches, and one whose provider answers every
    call. *)
Definition always_fails (HO : Host) : Prop :=
  forall history text, exists e message,
    @provider_call HO history text = Raises e message /\ caught e = true.

Definition never_fails (HO : Host) : Prop :=
  forall history text, exists ru,
    @provider_call HO history text = Returns ru.

(** The provider a host stands for when the exceptions of its provider
    are of the kind the handler catches. *)
Definition provider_of (HO : Host) : Provider :=
  {| translate history text :=
       match @provider_call HO history text with
       | Returns ru => Translated ru
       | Raises _ message => Failed message
       end |}.

(** Two computations that do the same in every world. *)
Definition same {A : Type} (m1 m2 : M A) : Prop := forall w, m1 w = m2 w.

(** The record of one item: the copied fields, empty text standing for an
    absent one, and for description what the augmenter returns for the
    description of the item. *)
Definition item_record `{Host} (flag : bool) (item : value) : M value :=
  description <- dual_description (field item "description" (VStr "")) flag ;;
  ret (VDict [("name", field item "name" (VStr ""));
              ("key", field item "key" (VStr ""));
              ("type", field item "type" (VStr ""));
              ("value_type", field item "value_type" (VStr ""));
              ("units", field item "units" (VStr ""));
              ("description", description)]).

Definition macro_record `{Host} (flag : bool) (m : value) : M value :=
  description <- dual_description (field m "description" (VStr "")) flag ;;
  ret (VDict [("macro", field m "macro" (VStr ""));
              ("value", field m "value" (VStr ""));
              ("description", description)]).

Definition rule_record `{Host} (flag : bool) (d : value) : M value :=
  description <- dual_description (field d "description" (VStr "")) flag ;;
  ret (VDict [("name", field d "name" (VStr ""));
              ("key", field d "key" (VStr ""));
              ("description", description)]).

(** The paragraph the heading block writes for a description, given what
    the augmenter made of it. *)
Definition paragraph (r : result value * world) (md : string)
  : result string * world :=
  match r with
  | (Ok (VStr dd), w) => (Ok (md ++ sanitize_description dd ++ nl ++ nl), w)
  | (Ok _, w) => (Raise AttributeError, w)
  | (Raise e, w) => (Raise e, w)
  end.

(** A template whose first item, macro and discovery rule have a
    description. *)
Definition described_template : value :=
  VDict
    [("items",
      VList [VDict [("name", VStr "CPU"); ("description", VStr "Load")];
             VDict [("name", VStr "Disk")]]);
     ("macros",
      VList [VDict [("macro", VStr "{$LIMIT}");
                    ("description", VStr "Limit")]]);
     ("discovery_rules",
      VList [VDict [("name", VStr "FS"); ("description", VStr "Disks");
                    ("item_prototypes",
                     VList [VDict [("name", VStr "Free")]])]])].

(** A discovery rule without a name, with one item prototype. *)
Definition nameless_rule : value :=
  VDict [("key", VStr "vfs.fs.discovery");
         ("item_prototypes", VList [VDict [("name", VStr "Free")]])].

(** * Properties *)

Local Open Scope py_scope.

(** ** Text lemmas *)

Lemma app_empty_r (s : string) : s ++ "" = s.
Proof. induction s; simpl; congruence. Qed.

Lemma app_assoc_s (a b c : string) : (a ++ b) ++ c = a ++ b ++ c.
Proof. induction a; simpl; congruence. Qed.

Lemma flat_app (f : ascii -> string) (a b : string) :
  flat f (a ++ b) = flat f a ++ flat f b.
Proof.
  induction a as [|c a IH]; simpl; [reflexivity|].
  now rewrite IH, app_assoc_s.
Qed.

Lemma prefix_one (a c : ascii) (s : string) :
  prefix (String a "") (String c s) = Ascii.eqb c a.
Proof.
  simpl. destruct (ascii_dec a c) as [->|Hne].
  - rewrite Ascii.eqb_refl. now destruct s.
  - symmetry. apply Ascii.eqb_neq. congruence.
Qed.

(** Replacing a one-character pattern works character by character. *)
Lemma replace_char (a : ascii) (new s : string) :
  replace (String a "") new s
  = flat (fun c => if Ascii.eqb c a then new else String c "") s.
Proof.
  unfold replace.
  induction s as [|c s IH]; [reflexivity|].
  cbn [replace_from flat]. rewrite prefix_one.
  destruct (Ascii.eqb c a); cbn [String.length Nat.sub]; now rewrite IH.
Qed.

Lemma sanitize_flat (t : string) :
  sanitize_description t = flat sanitize_char t.
Proof.
  unfold sanitize_description, nl. rewrite !replace_char.
  induction t as [|c t IH]; [reflexivity|].
  cbn [flat]. rewrite flat_app, IH. f_equal.
  unfold sanitize_char.
  destruct (Ascii.eqb_spec c LF) as [->|H1]; [reflexivity|].
  cbn [flat]. fold BAR. rewrite app_empty_r.
  destruct (Ascii.eqb c BAR); reflexivity.
Qed.

Lemma count_char_app (a : ascii) (x y : string) :
  count_char a (x ++ y) = count_char a x + count_char a y.
Proof. induction x; simpl; lia. Qed.

(** Case analysis on how the sanitizer treats a character. *)
Lemma sanitize_char_cases (c : ascii) :
  (c = LF /\ sanitize_char c = "<br>")
  \/ (c = BAR /\ sanitize_char c = "\|")
  \/ (c <> LF /\ c <> BAR /\ sanitize_char c = String c "").
Proof.
  unfold sanitize_char.
  destruct (Ascii.eqb_spec c LF) as [->|H1]; [now left|].
  destruct (Ascii.eqb_spec c BAR) as [->|H2]; [right; now left|].
  right; right; auto.
Qed.

Ltac char_cases c :=
  let H1 := fresh "Hlf" in
  let H2 := fresh "Hbar" in
  let E := fresh "Esan" in
  destruct (sanitize_char_cases c) as [[-> E]|[[-> E]|(H1 & H2 & E)]];
  rewrite E.

Lemma eqb_false (c a : ascii) : c <> a -> Ascii.eqb c a = false.
Proof. intro H. now apply Ascii.eqb_neq. Qed.

Lemma sanitize_no_line_feed (t : string) :
  count_char LF (flat sanitize_char t) = 0.
Proof.
  induction t as [|c t IH]; [reflexivity|].
  cbn [flat]. rewrite count_char_app, IH.
  char_cases c; try reflexivity.
  cbn [count_char]. now rewrite eqb_false.
Qed.

Lemma sanitize_bar_count (t : string) :
  count_char BAR (flat sanitize_char t) = count_char BAR t.
Proof.
  induction t as [|c t IH]; [reflexivity|].
  cbn [flat]. rewrite count_char_app, IH.
  char_cases c; try reflexivity.
  cbn [count_char]. now rewrite eqb_false.
Qed.

Lemma sanitize_backslash_count (t : string) :
  count_char BACKSLASH (flat sanitize_char t)
  = count_char BACKSLASH t + count_char BAR t.
Proof.
  induction t as [|c t IH]; [reflexivity|].
  cbn [flat]. rewrite count_char_app, IH.
  char_cases c; cbn [count_char].
  - cbn. lia.
  - cbn. lia.
  - rewrite (eqb_false c BAR) by assumption. lia.
Qed.

Lemma sanitize_bars_escaped (t : string) (b : bool) :
  unescaped_bars_from b (flat sanitize_char t) = 0.
Proof.
  revert b. induction t as [|c t IH]; intro b; [reflexivity|].
  cbn [flat]. char_cases c.
  - cbn. apply IH.
  - cbn. apply IH.
  - cbn [append unescaped_bars_from].
    rewrite (eqb_false c BAR) by assumption. cbn. apply IH.
Qed.

Lemma prefix_empty (s : string) : prefix "" s = true.
Proof. now destruct s. Qed.

Lemma prefix_step (a : ascii) (p : string) :
  plain a ->
  (forall t, prefix p (flat sanitize_char t) = prefix p t) ->
  forall t, prefix (String a p) (flat sanitize_char t) = prefix (String a p) t.
Proof.
  intros (H1 & H2 & H3 & H4) IH [|c t]; [reflexivity|].
  cbn [flat]. char_cases c; cbn [append prefix].
  - destruct (ascii_dec a "<"); [contradiction|].
    destruct (ascii_dec a LF); [contradiction|reflexivity].
  - destruct (ascii_dec a "\"); [contradiction|].
    destruct (ascii_dec a BAR); [contradiction|reflexivity].
  - destruct (ascii_dec a c); [apply IH|reflexivity].
Qed.

Lemma prefix_tail_of_marker (t : string) :
  prefix "br>" (flat sanitize_char t) = prefix "br>" t.
Proof.
  revert t.
  repeat (apply prefix_step; [repeat split; discriminate|]).
  intro t. now rewrite !prefix_empty.
Qed.

Lemma sanitize_marker_count (t : string) :
  count_sub "<br>" (flat sanitize_char t)
  = count_sub "<br>" t + count_char LF t.
Proof.
  induction t as [|c t IH]; [reflexivity|].
  cbn [flat]. char_cases c.
  - cbn [append count_sub count_char].
    replace (prefix "<br>" (String LF t)) with false by reflexivity.
    replace (prefix "<br>" (String "<" (String "b" (String "r" (String ">"
               (flat sanitize_char t)))))) with true
      by (cbn; now rewrite prefix_empty).
    cbn. rewrite IH. lia.
  - cbn. rewrite IH. lia.
  - cbn [append count_sub count_char].
    rewrite (eqb_false c LF) by assumption. rewrite IH.
    replace (prefix "<br>" (String c (flat sanitize_char t)))
      with (prefix "<br>" (String c t)); [lia|].
    cbn [prefix]. destruct (ascii_dec "<" c); [|reflexivity].
    symmetry. apply prefix_tail_of_marker.
Qed.

Lemma escaped_once_sanitize (t : string) :
  forall b1 b2,
    (b1 = true -> prefix "|" t = false) ->
    count_sub "\|" t = 0 ->
    escaped_once_from b1 b2 (flat sanitize_char t) = true.
Proof.
  induction t as [|c t IH]; intros b1 b2 Hb Hn; [reflexivity|].
  cbn [count_sub] in Hn.
  assert (Hn' : count_sub "\|" t = 0) by lia.
  cbn [flat]. char_cases c.
  - cbn. apply IH; [discriminate|assumption].
  - destruct b1;
      [specialize (Hb eq_refl); cbn in Hb; rewrite prefix_empty in Hb;
       discriminate|].
    cbn. apply IH; [discriminate|assumption].
  - cbn [append escaped_once_from].
    rewrite (eqb_false c BAR) by assumption. cbn [andb].
    apply IH; [|assumption].
    intro Hc. apply Ascii.eqb_eq in Hc. subst c.
    cbn [prefix] in Hn. unfold BACKSLASH in Hn.
    destruct (ascii_dec "\" "\") as [_|F]; [|now elim F].
    destruct (prefix "|" t); [discriminate|reflexivity].
Qed.

(** ** The sanitizer *)

(** C3, as amended.  The sanitizer rewrites the text character by
    character: a line feed becomes the marker, a bar gets one backslash in
    front, everything else is kept.  The result has no line feed, one more
    marker for every line feed of the input, the bars of the input, and one
    more backslash for every bar; each of its bars has a backslash right
    before it, and exactly one when the input has no backslash directly
    before a bar. *)
Theorem sanitize_description_spec (t : string) :
  sanitize_description t = flat sanitize_char t
  /\ count_char LF (sanitize_description t) = 0
  /\ count_sub "<br>" (sanitize_description t)
     = count_sub "<br>" t + count_char LF t
  /\ count_char BAR (sanitize_description t) = count_char BAR t
  /\ count_char BACKSLASH (sanitize_description t)
     = count_char BACKSLASH t + count_char BAR t
  /\ unescaped_bars (sanitize_description t) = 0
  /\ (count_sub "\|" t = 0 -> escaped_once (sanitize_description t) = true).
Proof.
  rewrite sanitize_flat. repeat split.
  - apply sanitize_no_line_feed.
  - apply sanitize_marker_count.
  - apply sanitize_bar_count.
  - apply sanitize_backslash_count.
  - apply sanitize_bars_escaped.
  - intro Hn. apply escaped_once_sanitize; [discriminate|assumption].
Qed.

Lemma sanitize_description_spec_witness :
  count_sub "\|" "a|b" = 0
  /\ escaped_once (sanitize_description "a|b") = true.
Proof.
  split; [reflexivity|].
  apply (sanitize_description_spec "a|b"). reflexivity.
Defined.

(** C3 as stated fails on a text that holds a backslash right before a
    bar: the sanitizer adds one more backslash, so the bar of the result
    has two in front of it. *)
Lemma sanitize_description_backslash_bar :
  ~ (forall t, 0 < count_char BAR t ->
               escaped_once (sanitize_description t) = true).
Proof.
  intro H. specialize (H "\|"). cbn in H.
  assert (E : false = true) by (apply H; lia). discriminate E.
Qed.

(** ** Reasoning about computations *)

Lemma bind_ok {A B} (m : M A) (k : A -> M B) (w w' : world) (a : A) :
  m w = (Ok a, w') -> bind m k w = k a w'.
Proof. unfold bind. now intros ->. Qed.

Lemma bind_raise {A B} (m : M A) (k : A -> M B) (w w' : world) (e : exn) :
  m w = (Raise e, w') -> bind m k w = (Raise e, w').
Proof. unfold bind. now intros ->. Qed.

Lemma bind_ret_l {A B} (a : A) (k : A -> M B) (w : world) :
  bind (ret a) k w = k a w.
Proof. reflexivity. Qed.

Lemma bind_assoc {A B C} (m : M A) (k1 : A -> M B) (k2 : B -> M C)
    (w : world) :
  bind (bind m k1) k2 w = bind m (fun a => bind (k1 a) k2) w.
Proof. unfold bind. now destruct (m w) as [[a|e] w']. Qed.

Lemma succeeds_ret {A} (a : A) (P : A -> Prop) : P a -> succeeds (ret a) P.
Proof. intros H w. now exists a, w. Qed.

Lemma succeeds_bind {A B} (m : M A) (k : A -> M B) (P : A -> Prop)
    (Q : B -> Prop) :
  succeeds m P -> (forall a, P a -> succeeds (k a) Q) -> succeeds (bind m k) Q.
Proof.
  intros Hm Hk w. destruct (Hm w) as (a & w1 & E & Ha).
  destruct (Hk a Ha w1) as (b & w2 & E2 & Hb).
  exists b, w2. split; [|assumption].
  now rewrite (bind_ok _ _ _ _ _ E).
Qed.

Lemma succeeds_weaken {A} (m : M A) (P Q : A -> Prop) :
  succeeds m P -> (forall a, P a -> Q a) -> succeeds m Q.
Proof.
  intros Hm H w. destruct (Hm w) as (a & w' & E & Ha).
  exists a, w'. auto.
Qed.

(** A loop that appends one record per element. *)
Lemma succeeds_collect {A B} (P : A -> Prop) (R : A -> B -> Prop)
    (body : list B -> A -> M (list B)) (l : list A) :
  (forall acc x, P x ->
     succeeds (body acc x) (fun out => exists y, out = (acc ++ [y])%list /\ R x y)) ->
  Forall P l ->
  forall acc,
    succeeds (for_each l body acc)
      (fun out => exists ys, out = (acc ++ ys)%list /\ Forall2 R l ys).
Proof.
  intros Hbody HP. induction HP as [|x l Hx HP IH]; intro acc; cbn [for_each].
  - apply succeeds_ret. exists []. split; [now rewrite app_nil_r|constructor].
  - eapply succeeds_bind; [apply (Hbody acc x Hx)|].
    intros out (y & -> & Hy).
    eapply succeeds_weaken; [apply IH|].
    intros out (ys & -> & Hys). exists (y :: ys). split.
    + now rewrite <- app_assoc.
    + now constructor.
Qed.

Lemma succeeds_comprehension {A B} (P : A -> Prop) (R : A -> B -> Prop)
    (f : A -> M B) (l : list A) :
  (forall x, P x -> succeeds (f x) (R x)) ->
  Forall P l ->
  succeeds (comprehension f l) (Forall2 R l).
Proof.
  intros Hf HP. induction HP as [|x l Hx HP IH]; cbn [comprehension].
  - apply succeeds_ret. constructor.
  - eapply succeeds_bind; [apply (Hf x Hx)|]. intros y Hy.
    eapply succeeds_bind; [apply IH|]. intros ys Hys.
    apply succeeds_ret. now constructor.
Qed.

Lemma agree_ret {A} (a : A) : agree (ret a) (ret a).
Proof. exists (Ok a). split; reflexivity. Qed.

Lemma agree_raise {A} (e : exn) : agree (@raise A e) (raise e).
Proof. exists (Raise e). split; reflexivity. Qed.

Lemma agree_bind {A B} (m1 m2 : M A) (k1 k2 : A -> M B) :
  agree m1 m2 -> (forall a, agree (k1 a) (k2 a)) ->
  agree (bind m1 k1) (bind m2 k2).
Proof.
  intros ([a|e] & E1 & E2) Hk.
  - destruct (Hk a) as (r & F1 & F2). exists r.
    split; intro w; unfold bind; [rewrite E1|rewrite E2]; auto.
  - exists (Raise e).
    split; intro w; unfold bind; [rewrite E1|rewrite E2]; reflexivity.
Qed.

Lemma agree_for_each {A S} (body1 body2 : S -> A -> M S) (l : list A) :
  (forall s x, agree (body1 s x) (body2 s x)) ->
  forall s, agree (for_each l body1 s) (for_each l body2 s).
Proof.
  intro Hbody. induction l as [|x l IH]; intro s; cbn [for_each].
  - apply agree_ret.
  - apply agree_bind; [apply Hbody|exact IH].
Qed.

Lemma agree_comprehension {A B} (f1 f2 : A -> M B) (l : list A) :
  (forall x, agree (f1 x) (f2 x)) ->
  agree (comprehension f1 l) (comprehension f2 l).
Proof.
  intro Hf. induction l as [|x l IH]; cbn [comprehension].
  - apply agree_ret.
  - apply agree_bind; [apply Hf|]. intro y.
    apply agree_bind; [exact IH|]. intro ys. apply agree_ret.
Qed.

Lemma agree_get (v : value) (k : string) (default : value) :
  agree (get v k default) (get v k default).
Proof. destruct v; cbn; try apply agree_raise; apply agree_ret. Qed.

Lemma agree_subscript (v : value) (k : string) :
  agree (subscript v k) (subscript v k).
Proof.
  destruct v; cbn; try apply agree_raise.
  destruct (lookup d k); [apply agree_ret|apply agree_raise].
Qed.

Lemma agree_iter (v : value) : agree (iter v) (iter v).
Proof. destruct v; cbn; try apply agree_raise; apply agree_ret. Qed.

Lemma agree_str_method (v : value) : agree (str_method v) (str_method v).
Proof. destruct v; cbn; try apply agree_raise; apply agree_ret. Qed.

Lemma agree_if {A} (b : bool) (m1 m2 n1 n2 : M A) :
  agree m1 m2 -> agree n1 n2 ->
  agree (if b then m1 else n1) (if b then m2 else n2).
Proof. now destruct b. Qed.

(** ** The table renderer *)

Section Renderer.
Context `{RT : Runtime}.

Lemma str_printable (v : value) (w : world) :
  printable v = true -> str v w = (Ok (py_str v), w).
Proof. unfold str. now intros ->. Qed.

Lemma str_not_printable (v : value) (w : world) :
  printable v = false -> str v w = (Raise ValueError, w).
Proof. unfold str. now intros ->. Qed.

Lemma cell_rendered (cell : value) (w : world) :
  printable cell = true ->
  bind (str cell) (fun text => ret (sanitize_description text)) w
  = (Ok (sanitize_description (py_str cell)), w).
Proof. intro H. now rewrite (bind_ok _ _ _ _ _ (str_printable cell w H)). Qed.

Lemma cell_not_rendered (cell : value) (w : world) :
  printable cell = false ->
  bind (str cell) (fun text => ret (sanitize_description text)) w
  = (Raise ValueError, w).
Proof.
  intro H. now rewrite (bind_raise _ _ _ _ _ (str_not_printable cell w H)).
Qed.

Lemma cells_rendered (row : list value) (w : world) :
  forallb printable row = true ->
  comprehension
    (fun cell => text <- str cell ;; ret (sanitize_description text)) row w
  = (Ok (map (fun cell => sanitize_description (py_str cell)) row), w).
Proof.
  induction row as [|cell row IH]; cbn [forallb comprehension map]; intro H;
    [reflexivity|].
  apply andb_prop in H. destruct H as [Hc H].
  rewrite (bind_ok _ _ _ _ _ (cell_rendered cell w Hc)).
  now rewrite (bind_ok _ _ _ _ _ (IH H)).
Qed.

Lemma cells_not_rendered (row : list value) (w : world) :
  forallb printable row = false ->
  comprehension
    (fun cell => text <- str cell ;; ret (sanitize_description text)) row w
  = (Raise ValueError, w).
Proof.
  induction row as [|cell row IH]; cbn [forallb comprehension]; intro H;
    [discriminate|].
  destruct (printable cell) eqn:Hc.
  - rewrite (bind_ok _ _ _ _ _ (cell_rendered cell w Hc)).
    cbn [andb] in H. now rewrite (bind_raise _ _ _ _ _ (IH H)).
  - now rewrite (bind_raise _ _ _ _ _ (cell_not_rendered cell w Hc)).
Qed.

Lemma cat_app (a b : list string) : cat (a ++ b) = cat a ++ cat b.
Proof.
  unfold cat. induction a as [|x a IH]; cbn [app fold_right]; [reflexivity|].
  now rewrite IH, app_assoc_s.
Qed.

Lemma rows_rendered (rows : list (list value)) :
  printable_rows rows = true ->
  forall table w,
    for_each rows
      (fun table row =>
         row <- comprehension
                  (fun cell => text <- str cell ;;
                               ret (sanitize_description text))
                  row ;;
         ret (table ++ "| " ++ join " | " row ++ " |" ++ nl))
      table w
    = (Ok (table ++ cat (map table_row rows)), w).
Proof.
  induction rows as [|row rows IH]; cbn [printable_rows forallb for_each map];
    intros H table w.
  - cbn. now rewrite app_empty_r.
  - apply andb_prop in H. destruct H as [Hr H].
    rewrite bind_assoc, (bind_ok _ _ _ _ _ (cells_rendered row w Hr)).
    rewrite bind_ret_l, (IH H). cbn [cat fold_right].
    fold (cat (map table_row rows)).
    unfold table_row at 2. now rewrite !app_assoc_s.
Qed.

Lemma rows_not_rendered (rows : list (list value)) :
  printable_rows rows = false ->
  forall table w,
    for_each rows
      (fun table row =>
         row <- comprehension
                  (fun cell => text <- str cell ;;
                               ret (sanitize_description text))
                  row ;;
         ret (table ++ "| " ++ join " | " row ++ " |" ++ nl))
      table w
    = (Raise ValueError, w).
Proof.
  induction rows as [|row rows IH]; cbn [printable_rows forallb for_each];
    intros H table w; [discriminate|].
  destruct (forallb printable row) eqn:Hr.
  - rewrite bind_assoc, (bind_ok _ _ _ _ _ (cells_rendered row w Hr)).
    rewrite bind_ret_l. cbn [andb] in H. now apply IH.
  - rewrite bind_assoc.
    now rewrite (bind_raise _ _ _ _ _ (cells_not_rendered row w Hr)).
Qed.

Lemma markdown_table_rows (headers : list string) (rows : list (list value))
    (w : world) :
  printable_rows rows = true ->
  markdown_table headers rows w = (Ok (table_text headers rows), w).
Proof.
  intro H. unfold markdown_table. cbv zeta.
  rewrite (rows_rendered rows H).
  unfold table_text, header_row, separator_row. now rewrite !app_assoc_s.
Qed.

Lemma markdown_table_raises (headers : list string)
    (rows : list (list value)) (w : world) :
  printable_rows rows = false ->
  markdown_table headers rows w = (Raise ValueError, w).
Proof.
  intro H. unfold markdown_table. cbv zeta. now apply rows_not_rendered.
Qed.

Lemma join_sanitized_no_line_feed (cells : list string) :
  count_char LF (join " | " (map sanitize_description cells)) = 0.
Proof.
  induction cells as [|t [|t' cells] IH]; [reflexivity| |].
  - cbn [map join String.concat]. rewrite sanitize_flat.
    apply sanitize_no_line_feed.
  - change (count_char LF
              (sanitize_description t ++ " | "
                 ++ join " | " (map sanitize_description (t' :: cells))) = 0).
    rewrite !count_char_app, IH, sanitize_flat, sanitize_no_line_feed.
    reflexivity.
Qed.

Lemma table_row_one_line (row : list value) :
  count_char LF (table_row row) = 1.
Proof.
  unfold table_row. rewrite <- (map_map py_str sanitize_description).
  cbn [append count_char]. rewrite count_char_app, join_sanitized_no_line_feed.
  reflexivity.
Qed.

(** C6.  When every cell can be turned into text, the renderer returns the
    header row, then the separator row with one three-dash group per header
    column, then one row per record in order, each cell turned into text
    and sanitized; the separator depends on the number of columns only, and
    every record row is one line.  A cell that cannot be turned into text
    makes it raise [ValueError]. *)
Theorem markdown_table_layout (headers : list string)
    (rows : list (list value)) (w : world) :
  (printable_rows rows = true ->
   markdown_table headers rows w
   = (Ok (("| " ++ join " | " headers ++ " |" ++ nl)
            ++ ("| " ++ join " | " (repeat "---" (List.length headers))
                     ++ " |" ++ nl)
            ++ cat (map (fun row =>
                           "| " ++ join " | "
                             (map (fun cell =>
                                     sanitize_description (py_str cell)) row)
                           ++ " |" ++ nl) rows)),
      w))
  /\ (printable_rows rows = false ->
      markdown_table headers rows w = (Raise ValueError, w))
  /\ List.length (map table_row rows) = List.length rows
  /\ Forall (fun row => count_char LF (table_row row) = 1) rows.
Proof.
  split; [intro H; now apply markdown_table_rows|].
  split; [intro H; now apply markdown_table_raises|split].
  - apply length_map.
  - apply Forall_forall. intros row _. apply table_row_one_line.
Qed.


End Renderer.

Lemma markdown_table_layout_witness :
  @printable_rows quoting_runtime [[VStr "a|b"; VInt 7; VNone]] = true
  /\ @markdown_table quoting_runtime ["Name"; "Key"; "Type"]
       [[VStr "a|b"; VInt 7; VNone]] w0
     = (Ok ("| Name | Key | Type |" ++ nl ++ "| --- | --- | --- |" ++ nl
              ++ "| a\|b | 7 | None |" ++ nl), w0).
Proof.
  split; [reflexivity|].
  destruct (@markdown_table_layout quoting_runtime ["Name"; "Key"; "Type"]
              [[VStr "a|b"; VInt 7; VNone]] w0) as [E _].
  rewrite (E eq_refl). reflexivity.
Defined.



(** ** Whitespace *)

Lemma length_app_s (a b : string) :
  String.length (a ++ b) = String.length a + String.length b.
Proof. induction a; cbn; congruence. Qed.

Lemma after_whitespace (c s : string) :
  In c whitespace ->
  after_prefix whitespace (c ++ s) = Some s /\ 1 <= String.length c.
Proof.
  intro H. unfold whitespace in H. cbn in H.
  repeat (destruct H as [<-|H];
          [cbn; rewrite prefix_empty; split; [reflexivity|lia]|]).
  contradiction.
Qed.

Lemma lstrip_whitespace_only (t : string) :
  whitespace_only t ->
  forall fuel, String.length t <= fuel -> lstrip_with whitespace fuel t = "".
Proof.
  induction 1 as [|c s Hc Hs IH]; intros fuel Hf.
  - destruct fuel; reflexivity.
  - destruct (after_whitespace c s Hc) as [E Hl].
    rewrite length_app_s in Hf.
    destruct fuel as [|k]; [lia|].
    cbn [lstrip_with]. rewrite E. apply IH. lia.
Qed.

Lemma strip_whitespace_only (t : string) :
  whitespace_only t -> strip t = "".
Proof.
  intro H. unfold strip, lstrip.
  rewrite (lstrip_whitespace_only t H) by lia. reflexivity.
Qed.

(** ** The augmenter *)

Section Augmenter.
Context `{HO : Host}.

Lemma dual_description_off (v : value) (w : world) :
  dual_description v false w = (Ok v, w).
Proof. reflexivity. Qed.

Lemma dual_description_blank (t : string) (w : world) :
  strip t = "" -> dual_description (VStr t) true w = (Ok (VStr t), w).
Proof.
  intro E. unfold dual_description. cbn [negb str_method].
  unfold bind, ret. now rewrite E.
Qed.

(** With the flag on and a text that is not blank, the augmenter is what
    follows the call to the provider. *)
Lemma dual_description_asks (t : string) (w : world) :
  strip t <> "" ->
  dual_description (VStr t) true w
  = match provider_call (sent w) t with
    | Returns ru =>
        (Ok (VStr (ru ++ "<br><i>" ++ t ++ "</i>")),
         {| sent := sent w ++ [t]; diag := diag w |})
    | Raises e message =>
        if caught e
        then match print_error (diag w) ("Ошибка перевода: " ++ message) with
             | None =>
                 (Ok (VStr t),
                  {| sent := sent w ++ [t];
                     diag := diag w ++ ["Ошибка перевода: " ++ message] |})
             | Some e' =>
                 (Raise e', {| sent := sent w ++ [t]; diag := diag w |})
             end
        else (Raise e, {| sent := sent w ++ [t]; diag := diag w |})
    end.
Proof.
  intro Hs. unfold dual_description. cbn [negb str_method truthy].
  unfold bind at 1. cbn [ret].
  destruct (String.eqb_spec (strip t) "") as [F|_]; [contradiction|].
  cbn [negb]. unfold bind at 1. unfold ask_provider.
  destruct (provider_call (sent w) t) as [ru|e message]; [reflexivity|].
  destruct (caught e); [|reflexivity].
  unfold bind, print, ret. cbn [diag sent].
  now destruct (print_error (diag w) ("Ошибка перевода: " ++ message)).
Qed.

(** C8.  With the flag off the augmenter returns its argument and leaves
    the world as it is, whatever the text; with the flag on it does the
    same for an empty or whitespace-only text: nothing is sent to the
    provider and nothing is printed. *)
Theorem dual_description_unchanged (t : string) (w : world) :
  dual_description (VStr t) false w = (Ok (VStr t), w)
  /\ (whitespace_only t ->
      dual_description (VStr t) true w = (Ok (VStr t), w)
      /\ sent (snd (dual_description (VStr t) true w)) = sent w).
Proof.
  split; [apply dual_description_off|].
  intro H. apply strip_whitespace_only in H.
  rewrite (dual_description_blank t w H). split; reflexivity.
Qed.


End Augmenter.

Lemma dual_description_unchanged_witness :
  whitespace_only (" " ++ nl ++ bytes [194; 160])
  /\ @dual_description (host_of_provider upper_provider)
       (VStr (" " ++ nl ++ bytes [194; 160])) true w0
     = (Ok (VStr (" " ++ nl ++ bytes [194; 160])), w0).
Proof.
  assert (H : whitespace_only (" " ++ nl ++ bytes [194; 160])).
  { apply (ws_more " "); [cbn; tauto|].
    apply (ws_more nl); [cbn; tauto|].
    apply (ws_more (bytes [194; 160]) ""); [cbn; tauto|constructor]. }
  split; [exact H|].
  apply (@dual_description_unchanged (host_of_provider upper_provider) _ w0).
  exact H.
Defined.



Example dual_description_interrupted :
  @dual_description interrupted_host (VStr "CPU load") true w0
  = (Raise KeyboardInterrupt, {| sent := ["CPU load"]; diag := [] |}).
Proof. reflexivity. Qed.

Example dual_description_print_fails :
  @dual_description ascii_output_host (VStr "CPU load") true w0
  = (Raise UnicodeEncodeError, {| sent := ["CPU load"]; diag := [] |}).
Proof. reflexivity. Qed.

(** ** Determinism without augmentation *)

Section Determinism.
Context `{RT : Runtime}.
Variables HO1 HO2 : Host.

Lemma agree_str (v : value) : agree (str v) (str v).
Proof. unfold str. destruct (printable v); [apply agree_ret|apply agree_raise]. Qed.

Lemma agree_dual_off (v : value) :
  agree (@dual_description HO1 v false) (@dual_description HO2 v false).
Proof. apply agree_ret. Qed.

Ltac agree_step :=
  first
    [ apply agree_ret | apply agree_raise | apply agree_get
    | apply agree_subscript | apply agree_iter | apply agree_str_method
    | apply agree_str
    | apply agree_dual_off
    | apply agree_if
    | apply agree_bind; [|intro]
    | apply agree_for_each; intros
    | apply agree_comprehension; intro ].

Ltac agree_auto := cbv zeta; repeat agree_step.

Lemma agree_extract_items (tpl : value) :
  agree (@extract_items HO1 tpl false) (@extract_items HO2 tpl false).
Proof. unfold extract_items. agree_auto. Qed.

Lemma agree_extract_macros (tpl : value) :
  agree (@extract_macros HO1 tpl false) (@extract_macros HO2 tpl false).
Proof. unfold extract_macros. agree_auto. Qed.

Lemma agree_extract_triggers (tpl : value) :
  agree (@extract_triggers HO1 tpl false) (@extract_triggers HO2 tpl false).
Proof. unfold extract_triggers. agree_auto. Qed.

Lemma agree_extract_discovery_rules (tpl : value) :
  agree (@extract_discovery_rules HO1 tpl false)
        (@extract_discovery_rules HO2 tpl false).
Proof. unfold extract_discovery_rules. agree_auto. Qed.

Lemma agree_emit_template (md : string) (tpl : value) :
  agree (@emit_template RT HO1 false md tpl) (@emit_template RT HO2 false md tpl).
Proof.
  unfold emit_template.
  apply agree_bind; [unfold emit_heading; agree_auto|intro].
  apply agree_bind;
    [unfold emit_items;
     apply agree_bind; [apply agree_extract_items|intro]; agree_auto|intro].
  apply agree_bind;
    [unfold emit_triggers;
     apply agree_bind; [apply agree_extract_triggers|intro]; agree_auto|intro].
  apply agree_bind;
    [unfold emit_macros;
     apply agree_bind; [apply agree_extract_macros|intro]; agree_auto|intro].
  unfold emit_discovery_rules.
  apply agree_bind; [apply agree_extract_discovery_rules|intro].
  unfold emit_item_prototypes, emit_trigger_prototypes. agree_auto.
Qed.

Lemma agree_main (data : value) :
  agree (@main RT HO1 data false) (@main RT HO2 data false).
Proof.
  unfold main.
  repeat (apply agree_bind; [first [apply agree_get|apply agree_iter]|intro]).
  apply agree_for_each. intros. apply agree_emit_template.
Qed.

End Determinism.

(** C9.  With augmentation off the output is a function of the parsed
    document alone: two runs on the same document, with any two hosts
    and any two starting worlds, end the same way (the same text, or the
    same exception), send nothing to the provider and print nothing. *)
Theorem main_deterministic `{RT : Runtime} (HO1 HO2 : Host)
    (data : value) (w1 w2 : world) :
  fst (@main RT HO1 data false w1) = fst (@main RT HO2 data false w2)
  /\ snd (@main RT HO1 data false w1) = w1
  /\ snd (@main RT HO2 data false w2) = w2.
Proof.
  destruct (agree_main HO1 HO2 data) as (r & E1 & E2).
  rewrite E1, E2. repeat split.
Qed.

(** ** The extractors *)

Section Extractors.
Context `{RT : Runtime} `{PV : Provider}.

Lemma succeeds_get (v : value) (k : string) (default : value) :
  is_dict v = true ->
  succeeds (get v k default) (fun x => x = field v k default).
Proof.
  destruct v; try discriminate. intros _ w. cbn.
  eexists _, _. split; reflexivity.
Qed.

Lemma succeeds_iter (v : value) (k : string) (p : value -> bool) :
  all_entries p v k = true ->
  succeeds (iter (field v k (VList [])))
    (fun l => l = entries v k /\ Forall (fun e => p e = true) l).
Proof.
  unfold all_entries, entries.
  destruct (field v k (VList [])); try discriminate.
  intros H w. cbn. exists l, w. repeat split.
  apply Forall_forall. now apply forallb_forall.
Qed.

Lemma succeeds_dual (flag : bool) (d : value) :
  describable flag d = true ->
  succeeds (dual_description d flag) (augmented flag d).
Proof.
  intros H w. destruct flag.
  - destruct d; try discriminate.
    destruct (String.eqb_spec (strip s) "") as [E|E].
    + exists (VStr s), w. split; [now apply dual_description_blank|now left].
    + rewrite (dual_description_asks s w E).
      cbn [provider_call print_error host_of_provider].
      destruct (translate (sent w) s) as [ru|msg]; cbn [caught].
      * eexists _, _. split; [reflexivity|]. right. split; [reflexivity|].
        now exists s, ru.
      * eexists _, _. split; [reflexivity|now left].
  - exists d, w. split; [reflexivity|now left].
Qed.

Lemma shaped_entry_inv (flag : bool) (e : value) :
  shaped_entry flag e = true ->
  is_dict e = true /\ describable flag (field e "description" (VStr "")) = true.
Proof. unfold shaped_entry. intro H. now apply andb_prop in H. Qed.

Ltac get_step H :=
  eapply succeeds_bind; [apply succeeds_get; exact H|intros ? ->].

Ltac record_body :=
  let Hd := fresh "Hd" in
  let Hx := fresh "Hx" in
  intros ? ? Hx; apply shaped_entry_inv in Hx; destruct Hx as [Hd Hx];
  repeat get_step Hd;
  eapply succeeds_bind; [apply succeeds_dual; exact Hx|];
  intros ? ?; apply succeeds_ret;
  eexists; split; [reflexivity|]; eexists; split; [eassumption|reflexivity].

Ltac open_collection H :=
  eapply succeeds_bind; [apply succeeds_get; assumption|intros ? ->];
  eapply succeeds_bind; [apply succeeds_iter; exact H|intros ? [-> ?]].

Lemma extract_items_records (tpl : value) (flag : bool) :
  is_dict tpl = true ->
  all_entries (shaped_entry flag) tpl "items" = true ->
  succeeds (extract_items tpl flag)
    (Forall2 (item_record_of flag) (entries tpl "items")).
Proof.
  intros Hd H. unfold extract_items. open_collection H.
  eapply succeeds_weaken.
  - apply (succeeds_collect (fun e => shaped_entry flag e = true)
             (item_record_of flag)); [record_body|assumption].
  - now intros out (ys & -> & Hys).
Qed.

Lemma extract_macros_records (tpl : value) (flag : bool) :
  is_dict tpl = true ->
  all_entries (shaped_entry flag) tpl "macros" = true ->
  succeeds (extract_macros tpl flag)
    (Forall2 (macro_record_of flag) (entries tpl "macros")).
Proof.
  intros Hd H. unfold extract_macros. open_collection H.
  eapply succeeds_weaken.
  - apply (succeeds_collect (fun e => shaped_entry flag e = true)
             (macro_record_of flag)); [record_body|assumption].
  - now intros out (ys & -> & Hys).
Qed.

Lemma extract_discovery_rules_records (tpl : value) (flag : bool) :
  is_dict tpl = true ->
  all_entries (shaped_entry flag) tpl "discovery_rules" = true ->
  succeeds (extract_discovery_rules tpl flag)
    (Forall2 (rule_record_of flag) (entries tpl "discovery_rules")).
Proof.
  intros Hd H. unfold extract_discovery_rules. open_collection H.
  eapply succeeds_weaken.
  - apply (succeeds_collect (fun e => shaped_entry flag e = true)
             (rule_record_of flag)); [record_body|assumption].
  - now intros out (ys & -> & Hys).
Qed.

(** A loop whose every pass appends some records. *)
Lemma succeeds_collect_many {A B} (P : A -> Prop) (R : A -> list B -> Prop)
    (body : list B -> A -> M (list B)) (l : list A) :
  (forall acc x, P x ->
     succeeds (body acc x)
       (fun out => exists ys, out = (acc ++ ys)%list /\ R x ys)) ->
  Forall P l ->
  forall acc,
    succeeds (for_each l body acc)
      (fun out => exists yss, out = (acc ++ concat yss)%list /\ Forall2 R l yss).
Proof.
  intros Hbody HP. induction HP as [|x l Hx HP IH]; intro acc; cbn [for_each].
  - apply succeeds_ret. exists []. split; [now rewrite app_nil_r|constructor].
  - eapply succeeds_bind; [apply (Hbody acc x Hx)|].
    intros out (ys & -> & Hy).
    eapply succeeds_weaken; [apply IH|].
    intros out (yss & -> & Hyss). exists (ys :: yss). split.
    + cbn [concat]. now rewrite <- app_assoc.
    + now constructor.
Qed.

Lemma Forall2_flat_map {A B C} (R : B -> C -> Prop) (f : A -> list B)
    (l : list A) (yss : list (list C)) :
  Forall2 (fun x ys => Forall2 R (f x) ys) l yss ->
  Forall2 R (flat_map f l) (concat yss).
Proof.
  induction 1; cbn; [constructor|]. now apply Forall2_app.
Qed.

Lemma has_triggers_inv (flag : bool) (item : value) :
  has_triggers flag item = true ->
  is_dict item = true
  /\ all_entries (shaped_entry flag) item "triggers" = true.
Proof. unfold has_triggers. intro H. now apply andb_prop in H. Qed.

Lemma extract_triggers_records (tpl : value) (flag : bool) :
  is_dict tpl = true ->
  all_entries (has_triggers flag) tpl "items" = true ->
  all_entries (shaped_entry flag) tpl "triggers" = true ->
  succeeds (extract_triggers tpl flag)
    (Forall2 (trigger_record_of flag) (trigger_occurrences tpl)).
Proof.
  intros Hd Hitems Hown. unfold extract_triggers. open_collection Hitems.
  eapply succeeds_bind.
  - apply (succeeds_collect_many (fun e => has_triggers flag e = true)
             (fun item ys =>
                Forall2 (trigger_record_of flag) (entries item "triggers") ys));
      [|eassumption].
    intros acc item Hitem. apply has_triggers_inv in Hitem.
    destruct Hitem as [Hdi Hnested].
    eapply succeeds_bind; [apply succeeds_get; assumption|intros ? ->].
    eapply succeeds_bind; [apply succeeds_iter; exact Hnested|intros ? [-> ?]].
    apply (succeeds_collect (fun e => shaped_entry flag e = true)
             (trigger_record_of flag)); [record_body|assumption].
  - intros triggers (yss & -> & Hyss). cbn [app].
    open_collection Hown.
    eapply succeeds_weaken.
    + apply (succeeds_collect (fun e => shaped_entry flag e = true)
               (trigger_record_of flag)); [record_body|assumption].
    + intros out (ys & -> & Hys). unfold trigger_occurrences.
      apply Forall2_app; [|assumption]. now apply Forall2_flat_map.
Qed.

(** ** Values that can be turned into text *)

Lemma printable_lookup (d : dict) (k : string) (x : value) :
  forallb (fun kv : string * value => let (_, y) := kv in printable y) d
  = true ->
  lookup d k = Some x -> printable x = true.
Proof.
  induction d as [|[k' y] d IH]; cbn [forallb lookup]; [discriminate|].
  intros H E. apply andb_prop in H. destruct H as [Hy H].
  destruct (String.eqb k' k); [now injection E as <-|auto].
Qed.

Lemma printable_field (v : value) (k : string) (default : value) :
  printable v = true -> printable default = true ->
  printable (field v k default) = true.
Proof.
  intros Hv Hd. destruct v; cbn [field]; try assumption.
  destruct (lookup d k) eqn:E; [|assumption].
  cbn [printable] in Hv. eapply printable_lookup; eassumption.
Qed.

Lemma printable_entries (v : value) (k : string) :
  printable v = true -> Forall (fun e => printable e = true) (entries v k).
Proof.
  intro H. unfold entries.
  pose proof (printable_field v k (VList []) H eq_refl) as P.
  destruct (field v k (VList [])); try constructor.
  cbn [printable] in P. apply Forall_forall. now apply forallb_forall.
Qed.

Lemma printable_occurrences (tpl : value) :
  printable tpl = true ->
  Forall (fun e => printable e = true) (trigger_occurrences tpl).
Proof.
  intro H. unfold trigger_occurrences. apply Forall_app. split.
  - pose proof (printable_entries tpl "items" H) as P.
    induction P as [|item items Hi P IH]; cbn [flat_map]; [constructor|].
    apply Forall_app. split; [now apply printable_entries|exact IH].
  - now apply printable_entries.
Qed.

Lemma augmented_printable (flag : bool) (d desc : value) :
  augmented flag d desc -> printable d = true -> printable desc = true.
Proof. intros [->|(_ & t & ru & _ & _ & ->)]; auto. Qed.

Lemma succeeds_str (v : value) :
  printable v = true -> succeeds (str v) (fun s => s = py_str v).
Proof. intros H w. exists (py_str v), w. split; [now apply str_printable|reflexivity]. Qed.

Lemma succeeds_subscript (d : dict) (k : string) (x : value) :
  lookup d k = Some x -> succeeds (subscript (VDict d) k) (fun y => y = x).
Proof. intros E w. exists x, w. cbn [subscript]. now rewrite E. Qed.

Lemma succeeds_markdown_table (headers : list string)
    (rows : list (list value)) :
  printable_rows rows = true ->
  succeeds (markdown_table headers rows) (fun t => t = table_text headers rows).
Proof.
  intros H w. exists (table_text headers rows), w.
  split; [now apply markdown_table_rows|reflexivity].
Qed.

Lemma printable_rows_map (cells : value -> list value) (P : value -> Prop)
    (recs : list value) :
  (forall r, P r -> forallb printable (cells r) = true) ->
  Forall P recs -> printable_rows (map cells recs) = true.
Proof.
  intros H F. unfold printable_rows. apply forallb_forall.
  intros row Hrow. apply in_map_iff in Hrow. destruct Hrow as (r & <- & Hr).
  rewrite Forall_forall in F. auto.
Qed.

Lemma printable_rows_Forall (rows : list (list value)) :
  Forall (fun row => forallb printable row = true) rows ->
  printable_rows rows = true.
Proof.
  intro F. unfold printable_rows. apply forallb_forall.
  now apply Forall_forall.
Qed.

(** ** The assembler, block by block *)

Lemma Forall2_right_with {A B} (P : A -> Prop) (R : A -> B -> Prop)
    (l : list A) (l' : list B) :
  Forall P l -> Forall2 R l l' -> Forall (fun y => exists x, R x y /\ P x) l'.
Proof.
  intros F H. induction H; constructor; inversion F; subst; eauto.
Qed.

Lemma Forall2_eq_map {A B} (f : A -> B) (l : list A) (l' : list B) :
  Forall2 (fun x y => y = f x) l l' -> l' = map f l.
Proof. induction 1; cbn; congruence. Qed.

(** The common shape of the Items, Triggers and Macros blocks. *)
Lemma section_block (extract : M (list value))
    (rowsf : list value -> M (list (list value)))
    (cells : value -> list value) (Rec : value -> Prop)
    (Post : list value -> Prop) (heading : string) (headers : list string)
    (md : string) :
  succeeds extract (fun recs => Post recs /\ Forall Rec recs) ->
  (forall recs, Forall Rec recs ->
     succeeds (rowsf recs) (fun rows => rows = map cells recs)) ->
  (forall r, Rec r -> forallb printable (cells r) = true) ->
  succeeds
    (recs <- extract ;;
     if truthy (VList recs)
     then rows <- rowsf recs ;;
          table <- markdown_table headers rows ;;
          ret ((md ++ heading ++ nl ++ nl) ++ table ++ nl ++ nl)
     else ret md)
    (fun out =>
       exists recs, Post recs /\ out = md ++ section heading headers (map cells recs)).
Proof.
  intros Hex Hrows Hprint. eapply succeeds_bind; [exact Hex|].
  intros recs [HP HR]. destruct recs as [|r recs]; cbn [truthy].
  - apply succeeds_ret. exists []. split; [assumption|].
    cbn. now rewrite app_empty_r.
  - eapply succeeds_bind; [apply Hrows; assumption|]. intros rows ->.
    eapply succeeds_bind;
      [apply succeeds_markdown_table;
       now apply (printable_rows_map cells Rec)|].
    intros table ->.
    apply succeeds_ret. exists (r :: recs). split; [assumption|].
    cbn [map section]. now rewrite !app_assoc_s.
Qed.

(** A block whose extractor finds nothing leaves the text as it is. *)
Lemma block_skipped {A} (extract : M (list value)) (rest : list value -> M A)
    (skip : M A) (P : A -> Prop) :
  succeeds extract (fun recs => recs = []) ->
  succeeds skip P ->
  succeeds (recs <- extract ;; if truthy (VList recs) then rest recs else skip)
    P.
Proof.
  intros Hex Hskip. eapply succeeds_bind; [exact Hex|]. now intros recs ->.
Qed.

Ltac sub_step :=
  eapply succeeds_bind; [apply succeeds_subscript; reflexivity|intros ? ->].

Ltac str_step H :=
  eapply succeeds_bind; [apply succeeds_str; exact H|intros ? ->].

Lemma item_rows_cells (flag : bool) (recs : list value) :
  Forall (fun r => exists item, item_record_of flag item r
                                /\ printable item = true) recs ->
  succeeds (item_rows recs) (fun rows => rows = map item_cells recs).
Proof.
  intro F. unfold item_rows. eapply succeeds_weaken.
  - eapply (succeeds_comprehension _ (fun r row => row = item_cells r)).
    2: exact F. cbv beta.
    intros r (item & (desc & _ & ->) & Hp).
    assert (H1 : printable (field item "type" (VStr "")) = true)
      by now apply printable_field.
    assert (H2 : printable (field item "value_type" (VStr "")) = true)
      by now apply printable_field.
    do 3 sub_step. str_step H1. sub_step. str_step H2. do 2 sub_step.
    now apply succeeds_ret.
  - intros rows. apply Forall2_eq_map.
Qed.

Lemma item_cells_printable (flag : bool) (r : value) :
  (exists item, item_record_of flag item r /\ printable item = true) ->
  forallb printable (item_cells r) = true.
Proof.
  intros (item & (desc & Ha & ->) & Hp).
  change (printable (field item "name" (VStr ""))
          && (printable (field item "key" (VStr ""))
              && (true && (true
                  && (printable (field item "units" (VStr ""))
                      && (printable desc && true))))) = true).
  rewrite !printable_field by (assumption || reflexivity).
  rewrite (augmented_printable _ _ _ Ha) by now apply printable_field.
  reflexivity.
Qed.

Lemma emit_items_section (tpl : value) (flag : bool) (md : string) :
  is_dict tpl = true ->
  printable tpl = true ->
  all_entries (shaped_entry flag) tpl "items" = true ->
  succeeds (emit_items tpl flag md)
    (fun out =>
       exists recs,
         Forall2 (item_record_of flag) (entries tpl "items") recs
         /\ out = md ++ section "## Items" item_headers (map item_cells recs)).
Proof.
  intros Hd Hp H. unfold emit_items. cbv zeta.
  apply (section_block _ _ item_cells
           (fun r => exists item, item_record_of flag item r
                                  /\ printable item = true)).
  - eapply succeeds_weaken; [now apply extract_items_records|].
    intros recs Hr. split; [assumption|].
    eapply Forall2_right_with; [|exact Hr]. now apply printable_entries.
  - apply item_rows_cells.
  - apply item_cells_printable.
Qed.

Lemma trigger_rows_cells (flag : bool) (recs : list value) :
  Forall (fun r => exists t, trigger_record_of flag t r
                             /\ printable t = true) recs ->
  succeeds (trigger_rows recs) (fun rows => rows = map trigger_cells recs).
Proof.
  intro F. unfold trigger_rows. eapply succeeds_weaken.
  - eapply (succeeds_comprehension _ (fun r row => row = trigger_cells r)).
    2: exact F. cbv beta.
    intros r (t & (desc & _ & ->) & Hp). do 4 sub_step.
    now apply succeeds_ret.
  - intros rows. apply Forall2_eq_map.
Qed.

Lemma trigger_cells_printable (flag : bool) (r : value) :
  (exists t, trigger_record_of flag t r /\ printable t = true) ->
  forallb printable (trigger_cells r) = true.
Proof.
  intros (t & (desc & Ha & ->) & Hp).
  change (printable (field t "name" (VStr ""))
          && (printable (field t "expression" (VStr ""))
              && (printable (field t "priority" (VStr ""))
                  && (printable desc && true))) = true).
  rewrite !printable_field by (assumption || reflexivity).
  rewrite (augmented_printable _ _ _ Ha) by now apply printable_field.
  reflexivity.
Qed.

Lemma emit_triggers_section (tpl : value) (flag : bool) (md : string) :
  is_dict tpl = true ->
  printable tpl = true ->
  all_entries (has_triggers flag) tpl "items" = true ->
  all_entries (shaped_entry flag) tpl "triggers" = true ->
  succeeds (emit_triggers tpl flag md)
    (fun out =>
       exists recs,
         Forall2 (trigger_record_of flag) (trigger_occurrences tpl) recs
         /\ out = md ++ section "## Triggers" trigger_headers
                          (map trigger_cells recs)).
Proof.
  intros Hd Hp H1 H2. unfold emit_triggers. cbv zeta.
  apply (section_block _ _ trigger_cells
           (fun r => exists t, trigger_record_of flag t r
                               /\ printable t = true)).
  - eapply succeeds_weaken; [now apply extract_triggers_records|].
    intros recs Hr. split; [assumption|].
    eapply Forall2_right_with; [|exact Hr]. now apply printable_occurrences.
  - apply trigger_rows_cells.
  - apply trigger_cells_printable.
Qed.

Ltac rec_get_step :=
  eapply succeeds_bind;
  [apply (succeeds_get (VDict _)); reflexivity|intros ? ->].

Lemma macro_rows_cells (flag : bool) (recs : list value) :
  Forall (fun r => exists m, macro_record_of flag m r
                             /\ printable m = true) recs ->
  succeeds (macro_rows recs) (fun rows => rows = map macro_cells recs).
Proof.
  intro F. unfold macro_rows. eapply succeeds_weaken.
  - eapply (succeeds_comprehension _ (fun r row => row = macro_cells r)).
    2: exact F. cbv beta.
    intros r (m & (desc & _ & ->) & Hp). do 3 rec_get_step.
    now apply succeeds_ret.
  - intros rows. apply Forall2_eq_map.
Qed.

Lemma macro_cells_printable (flag : bool) (r : value) :
  (exists m, macro_record_of flag m r /\ printable m = true) ->
  forallb printable (macro_cells r) = true.
Proof.
  intros (m & (desc & Ha & ->) & Hp).
  change (printable (field m "macro" (VStr ""))
          && (printable (field m "value" (VStr ""))
              && (printable desc && true)) = true).
  rewrite !printable_field by (assumption || reflexivity).
  rewrite (augmented_printable _ _ _ Ha) by now apply printable_field.
  reflexivity.
Qed.

Lemma emit_macros_section (tpl : value) (flag : bool) (md : string) :
  is_dict tpl = true ->
  printable tpl = true ->
  all_entries (shaped_entry flag) tpl "macros" = true ->
  succeeds (emit_macros tpl flag md)
    (fun out =>
       exists recs,
         Forall2 (macro_record_of flag) (entries tpl "macros") recs
         /\ out = md ++ section "## Macros" macro_headers
                          (map macro_cells recs)).
Proof.
  intros Hd Hp H. unfold emit_macros. cbv zeta.
  apply (section_block _ _ macro_cells
           (fun r => exists m, macro_record_of flag m r
                               /\ printable m = true)).
  - eapply succeeds_weaken; [now apply extract_macros_records|].
    intros recs Hr. split; [assumption|].
    eapply Forall2_right_with; [|exact Hr]. now apply printable_entries.
  - apply macro_rows_cells.
  - apply macro_cells_printable.
Qed.

Lemma all_entries_inv (p : value -> bool) (v : value) (k : string) :
  all_entries p v k = true ->
  field v k (VList []) = VList (entries v k)
  /\ Forall (fun e => p e = true) (entries v k).
Proof.
  unfold all_entries, entries.
  destruct (field v k (VList [])); try discriminate.
  intro H. split; [reflexivity|].
  apply Forall_forall. now apply forallb_forall.
Qed.

Lemma Forall_both {A} (P Q : A -> Prop) (l : list A) :
  Forall P l -> Forall Q l -> Forall (fun x => P x /\ Q x) l.
Proof. intros HP HQ. induction HP; inversion HQ; subst; constructor; auto. Qed.

Lemma Forall2_split {A B} (R : A -> B -> Prop) (Q : B -> Prop)
    (l : list A) (l' : list B) :
  Forall2 (fun x y => R x y /\ Q y) l l' -> Forall2 R l l' /\ Forall Q l'.
Proof.
  induction 1 as [|x y l l' [Hr Hq] _ [IH1 IH2]]; split; constructor; auto.
Qed.

Lemma Forall2_nil_l {A B} (R : A -> B -> Prop) (l : list B) :
  Forall2 R [] l -> l = [].
Proof. now inversion 1. Qed.

Lemma item_prototype_rows_built (flag : bool) (ips : list value) :
  Forall (fun e => shaped_entry flag e = true) ips ->
  Forall (fun e => printable e = true) ips ->
  succeeds (item_prototype_rows ips flag)
    (fun rows =>
       Forall2 (item_prototype_row_of flag) ips rows
       /\ printable_rows rows = true).
Proof.
  intros HS HP. unfold item_prototype_rows. eapply succeeds_weaken.
  - eapply (succeeds_comprehension _
              (fun ip row => item_prototype_row_of flag ip row
                             /\ forallb printable row = true)).
    2: exact (Forall_both _ _ _ HS HP). cbv beta.
    intros x [Hx Hpx]. apply shaped_entry_inv in Hx. destruct Hx as [Hdx Hx].
    assert (H1 : printable (field x "type" (VStr "")) = true)
      by now apply printable_field.
    assert (H2 : printable (field x "value_type" (VStr "")) = true)
      by now apply printable_field.
    do 3 get_step Hdx. str_step H1. get_step Hdx. str_step H2.
    do 2 get_step Hdx.
    eapply succeeds_bind; [apply succeeds_dual; exact Hx|].
    intros desc Hdesc. apply succeeds_ret. split; [now exists desc|].
    cbn [forallb printable].
    rewrite !printable_field by (assumption || reflexivity).
    rewrite (augmented_printable _ _ _ Hdesc) by now apply printable_field.
    reflexivity.
  - intros rows F. apply Forall2_split in F. destruct F as [F Q].
    split; [assumption|now apply printable_rows_Forall].
Qed.

Lemma trigger_prototype_rows_built (flag : bool) (tps : list value) :
  Forall (fun e => shaped_entry flag e = true) tps ->
  Forall (fun e => printable e = true) tps ->
  succeeds (trigger_prototype_rows tps flag)
    (fun rows =>
       Forall2 (trigger_prototype_row_of flag) tps rows
       /\ printable_rows rows = true).
Proof.
  intros HS HP. unfold trigger_prototype_rows. eapply succeeds_weaken.
  - eapply (succeeds_comprehension _
              (fun tp row => trigger_prototype_row_of flag tp row
                             /\ forallb printable row = true)).
    2: exact (Forall_both _ _ _ HS HP). cbv beta.
    intros x [Hx Hpx]. apply shaped_entry_inv in Hx. destruct Hx as [Hdx Hx].
    do 4 get_step Hdx.
    eapply succeeds_bind; [apply succeeds_dual; exact Hx|].
    intros desc Hdesc. apply succeeds_ret. split; [now exists desc|].
    cbn [forallb printable].
    rewrite !printable_field by (assumption || reflexivity).
    rewrite (augmented_printable _ _ _ Hdesc) by now apply printable_field.
    reflexivity.
  - intros rows F. apply Forall2_split in F. destruct F as [F Q].
    split; [assumption|now apply printable_rows_Forall].
Qed.

Lemma emit_item_prototypes_skipped (dr : value) (flag : bool) (md : string) :
  is_dict dr = true ->
  all_entries (shaped_entry flag) dr "item_prototypes" = true ->
  entries dr "item_prototypes" = [] ->
  succeeds (emit_item_prototypes dr flag md) (eq md).
Proof.
  intros Hd H E0. apply all_entries_inv in H. destruct H as [E _].
  unfold emit_item_prototypes. cbv zeta. get_step Hd.
  rewrite E, E0. now apply succeeds_ret.
Qed.

Lemma emit_trigger_prototypes_skipped (dr : value) (flag : bool)
    (md : string) :
  is_dict dr = true ->
  all_entries (shaped_entry flag) dr "trigger_prototypes" = true ->
  entries dr "trigger_prototypes" = [] ->
  succeeds (emit_trigger_prototypes dr flag md) (eq md).
Proof.
  intros Hd H E0. apply all_entries_inv in H. destruct H as [E _].
  unfold emit_trigger_prototypes. cbv zeta. get_step Hd.
  rewrite E, E0. now apply succeeds_ret.
Qed.

Lemma emit_item_prototypes_section (dr : value) (flag : bool) (md : string) :
  is_dict dr = true ->
  printable dr = true ->
  all_entries (shaped_entry flag) dr "item_prototypes" = true ->
  succeeds (emit_item_prototypes dr flag md)
    (fun out =>
       exists rows,
         Forall2 (item_prototype_row_of flag) (entries dr "item_prototypes")
           rows
         /\ out = md ++ section ("### Item prototypes for discovery: "
                                   ++ py_str (field dr "name" VNone))
                          item_headers rows).
Proof.
  intros Hd Hp H. apply all_entries_inv in H. destruct H as [E HP].
  pose proof (printable_entries dr "item_prototypes" Hp) as HQ.
  unfold emit_item_prototypes. cbv zeta. get_step Hd.
  rewrite E. destruct (entries dr "item_prototypes") as [|ip ips]; cbn [truthy].
  - apply succeeds_ret. exists []. split; [constructor|].
    cbn. now rewrite app_empty_r.
  - get_step Hd. str_step (printable_field dr "name" VNone Hp eq_refl).
    cbn [iter].
    eapply succeeds_bind;
      [apply (succeeds_ret _ (fun l => l = ip :: ips)); reflexivity
      |intros ? ->].
    eapply succeeds_bind; [now apply item_prototype_rows_built|].
    intros rows [Hrows Hprint].
    eapply succeeds_bind; [now apply succeeds_markdown_table|intros ? ->].
    apply succeeds_ret. exists rows.
    split; [assumption|]. inversion Hrows; subst.
    cbn [section]. now rewrite !app_assoc_s.
Qed.

Lemma emit_trigger_prototypes_section (dr : value) (flag : bool) (md : string) :
  is_dict dr = true ->
  printable dr = true ->
  all_entries (shaped_entry flag) dr "trigger_prototypes" = true ->
  succeeds (emit_trigger_prototypes dr flag md)
    (fun out =>
       exists rows,
         Forall2 (trigger_prototype_row_of flag)
           (entries dr "trigger_prototypes") rows
         /\ out = md ++ section ("### Trigger prototypes for discovery: "
                                   ++ py_str (field dr "name" VNone))
                          trigger_headers rows).
Proof.
  intros Hd Hp H. apply all_entries_inv in H. destruct H as [E HP].
  pose proof (printable_entries dr "trigger_prototypes" Hp) as HQ.
  unfold emit_trigger_prototypes. cbv zeta. get_step Hd.
  rewrite E.
  destruct (entries dr "trigger_prototypes") as [|tp tps]; cbn [truthy].
  - apply succeeds_ret. exists []. split; [constructor|].
    cbn. now rewrite app_empty_r.
  - get_step Hd. str_step (printable_field dr "name" VNone Hp eq_refl).
    cbn [iter].
    eapply succeeds_bind;
      [apply (succeeds_ret _ (fun l => l = tp :: tps)); reflexivity
      |intros ? ->].
    eapply succeeds_bind; [now apply trigger_prototype_rows_built|].
    intros rows [Hrows Hprint].
    eapply succeeds_bind; [now apply succeeds_markdown_table|intros ? ->].
    apply succeeds_ret. exists rows.
    split; [assumption|]. inversion Hrows; subst.
    cbn [section]. now rewrite !app_assoc_s.
Qed.

(** A loop whose every pass appends some text. *)
Lemma succeeds_for_each_text {A} (P : A -> Prop) (R : A -> string -> Prop)
    (body : string -> A -> M string) (l : list A) :
  (forall md x, P x ->
     succeeds (body md x) (fun out => exists t, R x t /\ out = md ++ t)) ->
  Forall P l ->
  forall md,
    succeeds (for_each l body md)
      (fun out => exists ts, Forall2 R l ts /\ out = md ++ cat ts).
Proof.
  intros Hbody HP. induction HP as [|x l Hx HP IH]; intro md; cbn [for_each].
  - apply succeeds_ret. exists []. split; [constructor|].
    cbn. now rewrite app_empty_r.
  - eapply succeeds_bind; [apply (Hbody md x Hx)|].
    intros out (t & Ht & ->).
    eapply succeeds_weaken; [apply IH|].
    intros out (ts & Hts & ->). exists (t :: ts). split; [now constructor|].
    cbn. now rewrite app_assoc_s.
Qed.

Lemma all_entries_weaken (p q : value -> bool) (v : value) (k : string) :
  (forall e, p e = true -> q e = true) ->
  all_entries p v k = true -> all_entries q v k = true.
Proof.
  intros Hpq. unfold all_entries.
  destruct (field v k (VList [])); try discriminate.
  rewrite !forallb_forall. auto.
Qed.

Lemma shaped_rule_inv (flag : bool) (dr : value) :
  shaped_rule flag dr = true ->
  shaped_entry flag dr = true
  /\ all_entries (shaped_entry flag) dr "item_prototypes" = true
  /\ all_entries (shaped_entry flag) dr "trigger_prototypes" = true.
Proof.
  unfold shaped_rule. intro H.
  apply andb_prop in H. destruct H as [H H3].
  apply andb_prop in H. now destruct H.
Qed.

Lemma emit_prototypes (dr : value) (flag : bool) (md : string) :
  shaped_rule flag dr = true ->
  printable dr = true ->
  succeeds
    (md_output <- emit_item_prototypes dr flag md ;;
     emit_trigger_prototypes dr flag md_output)
    (fun out => exists t, prototypes_of flag dr t /\ out = md ++ t).
Proof.
  intros H Hp. apply shaped_rule_inv in H. destruct H as (He & Hi & Ht).
  apply shaped_entry_inv in He. destruct He as [Hd _].
  eapply succeeds_bind; [now apply emit_item_prototypes_section|].
  intros out (irows & Hir & ->).
  eapply succeeds_weaken; [now apply emit_trigger_prototypes_section|].
  intros out (trows & Htr & ->).
  eexists. split; [exists irows, trows; repeat split; eassumption|].
  now rewrite app_assoc_s.
Qed.

Lemma rule_rows_cells (flag : bool) (recs : list value) :
  Forall (fun r => exists d, rule_record_of flag d r
                             /\ printable d = true) recs ->
  succeeds (rule_rows recs) (fun rows => rows = map rule_cells recs).
Proof.
  intro F. unfold rule_rows. eapply succeeds_weaken.
  - eapply (succeeds_comprehension _ (fun r row => row = rule_cells r)).
    2: exact F. cbv beta.
    intros r (d & (desc & _ & ->) & Hp). do 3 rec_get_step.
    now apply succeeds_ret.
  - intros rows. apply Forall2_eq_map.
Qed.

Lemma rule_cells_printable (flag : bool) (r : value) :
  (exists d, rule_record_of flag d r /\ printable d = true) ->
  forallb printable (rule_cells r) = true.
Proof.
  intros (d & (desc & Ha & ->) & Hp).
  change (printable (field d "name" (VStr ""))
          && (printable (field d "key" (VStr ""))
              && (printable desc && true)) = true).
  rewrite !printable_field by (assumption || reflexivity).
  rewrite (augmented_printable _ _ _ Ha) by now apply printable_field.
  reflexivity.
Qed.

Lemma emit_discovery_rules_skipped (tpl : value) (flag : bool) (md : string) :
  is_dict tpl = true ->
  all_entries (shaped_entry flag) tpl "discovery_rules" = true ->
  entries tpl "discovery_rules" = [] ->
  succeeds (emit_discovery_rules tpl flag md) (eq md).
Proof.
  intros Hd H E. unfold emit_discovery_rules. cbv zeta.
  apply block_skipped; [|now apply succeeds_ret].
  eapply succeeds_weaken; [now apply extract_discovery_rules_records|].
  intros recs F. rewrite E in F. now apply Forall2_nil_l in F.
Qed.

Lemma emit_discovery_rules_section (tpl : value) (flag : bool) (md : string) :
  is_dict tpl = true ->
  printable tpl = true ->
  all_entries (shaped_rule flag) tpl "discovery_rules" = true ->
  succeeds (emit_discovery_rules tpl flag md)
    (fun out =>
       exists recs parts,
         Forall2 (rule_record_of flag) (entries tpl "discovery_rules") recs
         /\ Forall2 (prototypes_of flag) (entries tpl "discovery_rules") parts
         /\ out = md ++ section "## Discovery rules" rule_headers
                          (map rule_cells recs)
                     ++ cat parts).
Proof.
  intros Hd Hp H. unfold emit_discovery_rules. cbv zeta.
  pose proof (printable_entries tpl "discovery_rules" Hp) as HQ.
  eapply succeeds_bind.
  { apply extract_discovery_rules_records; [assumption|].
    revert H. apply all_entries_weaken.
    intros e He. now apply shaped_rule_inv in He. }
  intros recs Hrecs. destruct recs as [|r recs]; cbn [truthy].
  - apply succeeds_ret. exists [], []. inversion Hrecs.
    repeat split; try constructor. cbn. now rewrite app_empty_r.
  - pose proof (Forall2_right_with _ _ _ _ HQ Hrecs) as HR.
    eapply succeeds_bind; [apply (rule_rows_cells flag); exact HR|].
    intros rows ->.
    eapply succeeds_bind.
    { apply succeeds_markdown_table.
      apply (printable_rows_map rule_cells _ _ (rule_cells_printable flag) HR). }
    intros table ->.
    open_collection H.
    eapply succeeds_weaken.
    + apply (succeeds_for_each_text
               (fun e => shaped_rule flag e = true /\ printable e = true)
               (prototypes_of flag)); [|now apply Forall_both].
      intros md' dr [Hdr Hpr]. now apply emit_prototypes.
    + intros out (parts & Hparts & ->). exists (r :: recs), parts.
      repeat split; try assumption.
      cbn [map section]. now rewrite !app_assoc_s.
Qed.

Lemma augmented_text (flag : bool) (t : string) (dd : value) :
  augmented flag (VStr t) dd -> exists s, dd = VStr s.
Proof.
  intros [->|(_ & t' & ru & _ & _ & ->)]; eauto.
Qed.

Lemma emit_heading_paragraph (tpl : value) (flag : bool) (md : string) :
  is_dict tpl = true ->
  printable tpl = true ->
  is_text (field tpl "description" (VStr "")) = true ->
  succeeds (emit_heading tpl flag md)
    (fun out =>
       exists par,
         paragraph_of flag tpl par
         /\ out = md ++ "# Template: "
                     ++ py_str (field tpl "template" (VStr "")) ++ nl ++ nl
                     ++ par).
Proof.
  intros Hd Hp Ht. unfold emit_heading. cbv zeta.
  get_step Hd. str_step (printable_field tpl "template" (VStr "") Hp eq_refl).
  get_step Hd.
  destruct (field tpl "description" (VStr "")) as [| | |s| |] eqn:E;
    try discriminate.
  cbn [str_method].
  eapply succeeds_bind;
    [apply (succeeds_ret _ (fun x => x = s)); reflexivity|intros ? ->].
  cbn [truthy]. destruct (String.eqb_spec (strip s) "") as [Es|Es]; cbn [negb].
  - apply succeeds_ret. exists "". split.
    + exists s. split; [assumption|]. now left.
    + now rewrite ?app_assoc_s, app_empty_r.
  - eapply succeeds_bind; [apply succeeds_dual; now destruct flag|].
    intros dd Hdd. destruct (augmented_text _ _ _ Hdd) as [x ->].
    cbn [str_method].
    eapply succeeds_bind;
      [apply (succeeds_ret _ (fun y => y = x)); reflexivity|intros ? ->].
    apply succeeds_ret. eexists. split.
    + exists s. split; [assumption|]. right. split; [assumption|].
      exists x. split; [assumption|reflexivity].
    + now rewrite ?app_assoc_s.
Qed.

(** ** The assembler, template by template *)

Lemma shaped_item_inv (flag : bool) (item : value) :
  shaped_item flag item = true ->
  shaped_entry flag item = true /\ has_triggers flag item = true.
Proof. unfold shaped_item. intro H. now apply andb_prop in H. Qed.

Lemma shaped_template_inv (flag : bool) (tpl : value) :
  shaped_template flag tpl = true ->
  is_dict tpl = true
  /\ is_text (field tpl "description" (VStr "")) = true
  /\ all_entries (shaped_entry flag) tpl "items" = true
  /\ all_entries (has_triggers flag) tpl "items" = true
  /\ all_entries (shaped_entry flag) tpl "triggers" = true
  /\ all_entries (shaped_entry flag) tpl "macros" = true
  /\ all_entries (shaped_rule flag) tpl "discovery_rules" = true.
Proof.
  unfold shaped_template. intro H.
  repeat (let H' := fresh "H" in apply andb_prop in H; destruct H as [H H']).
  repeat split; try assumption.
  - revert H3. apply all_entries_weaken. intros e He.
    now apply shaped_item_inv in He.
  - revert H3. apply all_entries_weaken. intros e He.
    now apply shaped_item_inv in He.
Qed.

Lemma emit_template_rendering (tpl : value) (flag : bool) (md : string) :
  shaped_template flag tpl = true ->
  printable tpl = true ->
  succeeds (emit_template flag md tpl)
    (fun out => exists text, template_rendering flag tpl text /\ out = md ++ text).
Proof.
  intros H Hp. apply shaped_template_inv in H.
  destruct H as (Hd & Ht & Hi & Hit & Htr & Hm & Hr).
  unfold emit_template.
  eapply succeeds_bind; [now apply emit_heading_paragraph|].
  intros ? (par & Hpar & ->).
  eapply succeeds_bind; [now apply emit_items_section|].
  intros ? (items & Hitems & ->).
  eapply succeeds_bind; [now apply emit_triggers_section|].
  intros ? (triggers & Htriggers & ->).
  eapply succeeds_bind; [now apply emit_macros_section|].
  intros ? (macros & Hmacros & ->).
  eapply succeeds_weaken; [now apply emit_discovery_rules_section|].
  intros ? (rules & parts & Hrules & Hparts & ->).
  eexists. split.
  - exists par, items, triggers, macros, rules, parts.
    repeat split; try eassumption.
  - now rewrite !app_assoc_s.
Qed.

Lemma shaped_document_inv (flag : bool) (data : value) :
  shaped_document flag data = true ->
  is_dict data = true
  /\ is_dict (field data "zabbix_export" (VDict [])) = true
  /\ all_entries (shaped_template flag)
       (field data "zabbix_export" (VDict [])) "templates" = true.
Proof.
  unfold shaped_document. intro H.
  apply andb_prop in H. destruct H as [H H3].
  apply andb_prop in H. now destruct H.
Qed.

Lemma printable_templates (data : value) :
  printable data = true ->
  Forall (fun tpl => printable tpl = true)
    (entries (field data "zabbix_export" (VDict [])) "templates").
Proof.
  intro H. apply printable_entries. now apply printable_field.
Qed.

Lemma main_renders (data : value) (flag : bool) :
  shaped_document flag data = true ->
  printable data = true ->
  succeeds (main data flag)
    (fun out =>
       exists texts,
         Forall2 (template_rendering flag)
           (entries (field data "zabbix_export" (VDict [])) "templates") texts
         /\ out = cat texts).
Proof.
  intros H Hp. apply shaped_document_inv in H. destruct H as (Hd & He & Ht).
  unfold main.
  eapply succeeds_bind; [apply succeeds_get; assumption|intros ? ->].
  eapply succeeds_bind; [apply succeeds_get; assumption|intros ? ->].
  eapply succeeds_bind; [apply succeeds_iter; exact Ht|intros ? [-> HP]].
  apply (succeeds_for_each_text
           (fun e => shaped_template flag e = true /\ printable e = true)
           (template_rendering flag));
    [|apply Forall_both; [assumption|now apply printable_templates]].
  intros md tpl [Htpl Hptpl].
  eapply succeeds_weaken; [now apply emit_template_rendering|].
  intros out (text & Htext & ->). now exists text.
Qed.

(** ** Blocks that have nothing to write *)

Lemma emit_items_skipped (tpl : value) (flag : bool) (md : string) :
  is_dict tpl = true ->
  all_entries (shaped_entry flag) tpl "items" = true ->
  entries tpl "items" = [] ->
  succeeds (emit_items tpl flag md) (eq md).
Proof.
  intros Hd H E. unfold emit_items. cbv zeta.
  apply block_skipped; [|now apply succeeds_ret].
  eapply succeeds_weaken; [now apply extract_items_records|].
  intros recs F. rewrite E in F. now apply Forall2_nil_l in F.
Qed.

Lemma emit_triggers_skipped (tpl : value) (flag : bool) (md : string) :
  is_dict tpl = true ->
  all_entries (has_triggers flag) tpl "items" = true ->
  all_entries (shaped_entry flag) tpl "triggers" = true ->
  trigger_occurrences tpl = [] ->
  succeeds (emit_triggers tpl flag md) (eq md).
Proof.
  intros Hd H1 H2 E. unfold emit_triggers. cbv zeta.
  apply block_skipped; [|now apply succeeds_ret].
  eapply succeeds_weaken; [now apply extract_triggers_records|].
  intros recs F. rewrite E in F. now apply Forall2_nil_l in F.
Qed.

Lemma emit_macros_skipped (tpl : value) (flag : bool) (md : string) :
  is_dict tpl = true ->
  all_entries (shaped_entry flag) tpl "macros" = true ->
  entries tpl "macros" = [] ->
  succeeds (emit_macros tpl flag md) (eq md).
Proof.
  intros Hd H E. unfold emit_macros. cbv zeta.
  apply block_skipped; [|now apply succeeds_ret].
  eapply succeeds_weaken; [now apply extract_macros_records|].
  intros recs F. rewrite E in F. now apply Forall2_nil_l in F.
Qed.

(** ** The claims about extraction and assembly *)

(** C2.  On a template whose items and triggers are mappings, the trigger
    extractor returns one record per trigger occurrence, position by
    position: first the triggers nested in the items, in item order and in
    nested order, then the template's own triggers in declared order;
    nothing is merged or dropped.  Every record carries the name, the
    expression and the priority of its trigger (empty text when absent)
    and its description after augmentation. *)
Theorem extract_triggers_order (tpl : value) (flag : bool) :
  is_dict tpl = true ->
  all_entries (has_triggers flag) tpl "items" = true ->
  all_entries (shaped_entry flag) tpl "triggers" = true ->
  succeeds (extract_triggers tpl flag)
    (fun records =>
       Forall2 (trigger_record_of flag)
         (flat_map (fun item => entries item "triggers") (entries tpl "items")
          ++ entries tpl "triggers")
         records
       /\ List.length records
          = List.length (flat_map (fun item => entries item "triggers")
                           (entries tpl "items"))
            + List.length (entries tpl "triggers")).
Proof.
  intros Hd Hitems Hown.
  eapply succeeds_weaken; [now apply extract_triggers_records|].
  intros records F. split; [exact F|].
  apply Forall2_length in F. rewrite <- F.
  unfold trigger_occurrences. now rewrite length_app.
Qed.

(** C1.  On a template whose present parts have the expected type, every
    block of the assembler leaves the output as it is when it has no
    record: Items, Triggers, Macros, Discovery rules, and for each rule its
    Item prototypes and Trigger prototypes.  When the numbers of the
    template can be turned into text, the text of the template is its
    title, its paragraph and the sections in order, each empty without
    rows; with no item, trigger, macro or discovery rule it is the title
    followed by the paragraph, which is empty for a blank description. *)
Theorem sections_omitted_when_empty (tpl : value) (flag : bool) (md : string) :
  shaped_template flag tpl = true ->
  (entries tpl "items" = [] -> succeeds (emit_items tpl flag md) (eq md))
  /\ (trigger_occurrences tpl = [] ->
      succeeds (emit_triggers tpl flag md) (eq md))
  /\ (entries tpl "macros" = [] -> succeeds (emit_macros tpl flag md) (eq md))
  /\ (entries tpl "discovery_rules" = [] ->
      succeeds (emit_discovery_rules tpl flag md) (eq md))
  /\ (forall dr, In dr (entries tpl "discovery_rules") ->
        (entries dr "item_prototypes" = [] ->
         succeeds (emit_item_prototypes dr flag md) (eq md))
        /\ (entries dr "trigger_prototypes" = [] ->
            succeeds (emit_trigger_prototypes dr flag md) (eq md)))
  /\ (printable tpl = true ->
      succeeds (emit_template flag md tpl)
        (fun out =>
           exists text, template_rendering flag tpl text /\ out = md ++ text))
  /\ (printable tpl = true ->
      entries tpl "items" = [] -> entries tpl "triggers" = [] ->
      entries tpl "macros" = [] -> entries tpl "discovery_rules" = [] ->
      succeeds (emit_template flag md tpl)
        (fun out =>
           exists par,
             paragraph_of flag tpl par
             /\ out = md ++ "# Template: "
                         ++ py_str (field tpl "template" (VStr "")) ++ nl ++ nl
                         ++ par)).
Proof.
  intro H. pose proof (emit_template_rendering tpl flag md H) as Hall.
  apply shaped_template_inv in H.
  destruct H as (Hd & Ht & Hi & Hit & Htr & Hm & Hr).
  repeat apply conj.
  - now apply emit_items_skipped.
  - now apply emit_triggers_skipped.
  - now apply emit_macros_skipped.
  - apply emit_discovery_rules_skipped; [assumption|].
    revert Hr. apply all_entries_weaken.
    intros e He. now apply shaped_rule_inv in He.
  - intros dr Hin. apply all_entries_inv in Hr. destruct Hr as [_ Hr].
    rewrite Forall_forall in Hr. specialize (Hr dr Hin).
    apply shaped_rule_inv in Hr. destruct Hr as (He & Hip & Htp).
    apply shaped_entry_inv in He. destruct He as [Hdr _]. split.
    + now apply emit_item_prototypes_skipped.
    + now apply emit_trigger_prototypes_skipped.
  - exact Hall.
  - intros Hp E1 E2 E3 E4. eapply succeeds_weaken; [exact (Hall Hp)|].
    intros out (text & R & ->).
    destruct R as (par & items & triggers & macros & rules & parts
                   & Hpar & F1 & F2 & F3 & F4 & F5 & ->).
    unfold trigger_occurrences in F2. rewrite E1, E2 in F2. cbn in F2.
    rewrite E1 in F1. rewrite E3 in F3. rewrite E4 in F4, F5.
    apply Forall2_nil_l in F1, F2, F3, F4, F5. subst.
    exists par. split; [assumption|].
    cbn [map section cat fold_right]. now rewrite !app_empty_r.
Qed.

Lemma field_absent (e : value) (k : string) (default : value) :
  has_key e k = false -> field e k default = default.
Proof.
  destruct e; cbn; try reflexivity.
  destruct (lookup d k); [discriminate|reflexivity].
Qed.

Lemma augmented_blank (flag : bool) (desc : value) :
  augmented flag (VStr "") desc -> desc = VStr "".
Proof.
  intros [->|(_ & t & ru & E & Hs & _)]; [reflexivity|].
  injection E as <-. now elim Hs.
Qed.

Ltac blank_keys :=
  let k := fresh "k" in
  let Hk := fresh "Hk" in
  let Ha := fresh "Ha" in
  let Hd := fresh "Hd" in
  intros ? ? (? & Hd & ->) k Hk Ha; cbn in Hk;
  repeat (destruct Hk as [<-|Hk];
          [cbn; rewrite ?(field_absent _ _ _ Ha) in *;
           first [reflexivity | now apply augmented_blank in Hd]|]);
  contradiction.

Lemma item_record_blanks (flag : bool) (e r : value) :
  item_record_of flag e r -> blanks_for_absent item_keys e r.
Proof. revert e r. blank_keys. Qed.

Lemma trigger_record_blanks (flag : bool) (e r : value) :
  trigger_record_of flag e r -> blanks_for_absent trigger_keys e r.
Proof. revert e r. blank_keys. Qed.

Lemma macro_record_blanks (flag : bool) (e r : value) :
  macro_record_of flag e r -> blanks_for_absent macro_keys e r.
Proof. revert e r. blank_keys. Qed.

Lemma rule_record_blanks (flag : bool) (e r : value) :
  rule_record_of flag e r -> blanks_for_absent rule_keys e r.
Proof. revert e r. blank_keys. Qed.

Lemma Forall2_impl {A B} (R R' : A -> B -> Prop) (l : list A) (l' : list B) :
  (forall x y, R x y -> R' x y) -> Forall2 R l l' -> Forall2 R' l l'.
Proof. intro H. induction 1; constructor; auto. Qed.

Lemma agree_succeeds {A} (m1 m2 : M A) (P : A -> Prop) :
  agree m1 m2 -> succeeds m1 P -> succeeds m2 P.
Proof.
  intros (r & E1 & E2) H w. destruct (H w) as (a & w' & E & Pa).
  rewrite E1 in E. injection E as -> _. exists a, w. now rewrite E2.
Qed.

Lemma item_prototype_row_blanks (flag : bool) (ip : value)
    (row : list value) :
  item_prototype_row_of flag ip row -> blank_cells_for_absent item_keys ip row.
Proof.
  intros (desc & Hd & ->) i k Hk Ha.
  do 6 (destruct i as [|i];
        [injection Hk as <-; cbn [nth_error];
         rewrite ?(field_absent _ _ _ Ha) in *;
         first [reflexivity | now apply augmented_blank in Hd as ->]|]).
  destruct i; discriminate.
Qed.

Lemma trigger_prototype_row_blanks (flag : bool) (tp : value)
    (row : list value) :
  trigger_prototype_row_of flag tp row ->
  blank_cells_for_absent trigger_keys tp row.
Proof.
  intros (desc & Hd & ->) i k Hk Ha.
  do 4 (destruct i as [|i];
        [injection Hk as <-; cbn [nth_error];
         rewrite ?(field_absent _ _ _ Ha) in *;
         first [reflexivity | now apply augmented_blank in Hd as ->]|]).
  destruct i; discriminate.
Qed.

Lemma trigger_prototype_rows_of (flag : bool) (tps : list value) :
  Forall (fun e => shaped_entry flag e = true) tps ->
  succeeds (trigger_prototype_rows tps flag)
    (Forall2 (trigger_prototype_row_of flag) tps).
Proof.
  intro HS. unfold trigger_prototype_rows.
  apply (succeeds_comprehension (fun e => shaped_entry flag e = true));
    [|assumption].
  intros x Hx. apply shaped_entry_inv in Hx. destruct Hx as [Hdx Hx].
  do 4 get_step Hdx.
  eapply succeeds_bind; [apply succeeds_dual; exact Hx|].
  intros desc Hdesc. apply succeeds_ret. now exists desc.
Qed.



End Extractors.

(** ** The claims at concrete documents *)

Lemma extract_triggers_order_witness :
  is_dict two_trigger_template = true
  /\ all_entries (has_triggers true) two_trigger_template "items" = true
  /\ all_entries (shaped_entry true) two_trigger_template "triggers" = true
  /\ succeeds (@extract_triggers (host_of_provider upper_provider)
                 two_trigger_template true)
       (fun records =>
          Forall2 (trigger_record_of true)
            [VDict [("name", VStr "High load")];
             VDict [("name", VStr "Host down")]]
            records
          /\ List.length records = 1 + 1).
Proof.
  split; [reflexivity|]. split; [reflexivity|]. split; [reflexivity|].
  exact (@extract_triggers_order upper_provider two_trigger_template true
           eq_refl eq_refl eq_refl).
Defined.

Example extract_triggers_two :
  @extract_triggers (host_of_provider failing_provider) two_trigger_template
    false w0
  = (Ok [VDict [("name", VStr "High load"); ("expression", VStr "");
                ("priority", VStr ""); ("description", VStr "")];
         VDict [("name", VStr "Host down"); ("expression", VStr "");
                ("priority", VStr ""); ("description", VStr "")]],
     w0).
Proof. reflexivity. Qed.

Lemma sections_omitted_when_empty_witness :
  shaped_template true bare_template = true
  /\ @printable quoting_runtime bare_template = true
  /\ entries bare_template "items" = []
  /\ entries bare_template "triggers" = []
  /\ entries bare_template "macros" = []
  /\ entries bare_template "discovery_rules" = []
  /\ succeeds (@emit_template quoting_runtime
                 (host_of_provider failing_provider) true "" bare_template)
       (fun out =>
          exists par,
            paragraph_of true bare_template par
            /\ out = "" ++ "# Template: "
                        ++ @py_str quoting_runtime
                             (field bare_template "template" (VStr ""))
                        ++ nl ++ nl ++ par).
Proof.
  do 6 (split; [reflexivity|]).
  apply (@sections_omitted_when_empty quoting_runtime failing_provider
           bare_template true "" eq_refl); reflexivity.
Defined.

Example emit_bare_template :
  @emit_template quoting_runtime (host_of_provider failing_provider) false ""
    bare_template w0
  = (Ok ("# Template: Empty" ++ nl ++ nl ++ "nothing \| here" ++ nl ++ nl), w0).
Proof. reflexivity. Qed.

(** A rule with two item prototypes and no trigger prototype: the Item
    prototypes subsection has two rows and there is no Trigger prototypes
    subsection. *)
Example emit_discovery_rules_sample :
  @emit_discovery_rules quoting_runtime (host_of_provider failing_provider)
    sample_template false "" w0
  = (Ok ("## Discovery rules" ++ nl ++ nl
         ++ "| Name | Key | Description |" ++ nl
         ++ "| --- | --- | --- |" ++ nl
         ++ "| FS | vfs.fs.discovery |  |" ++ nl ++ nl ++ nl
         ++ "### Item prototypes for discovery: FS" ++ nl ++ nl
         ++ "| Name | Key | Type | Value type | Units | Description |" ++ nl
         ++ "| --- | --- | --- | --- | --- | --- |" ++ nl
         ++ "| Free |  | 7 |  |  |  |" ++ nl
         ++ "| Used |  |  |  |  |  |" ++ nl ++ nl ++ nl), w0).
Proof. reflexivity. Qed.


(** Every field absent: every cell of every table is empty, and the
    headings of the prototypes read None. *)
Example main_sparse_document :
  @main quoting_runtime (host_of_provider failing_provider) sparse_document
    true w0
  = (Ok ("# Template: " ++ nl ++ nl
         ++ "## Items" ++ nl ++ nl
         ++ "| Name | Key | Type | Value type | Units | Description |" ++ nl
         ++ "| --- | --- | --- | --- | --- | --- |" ++ nl
         ++ "|  |  |  |  |  |  |" ++ nl ++ nl ++ nl
         ++ "## Triggers" ++ nl ++ nl
         ++ "| Name | Expression | Priority | Description |" ++ nl
         ++ "| --- | --- | --- | --- |" ++ nl
         ++ "|  |  |  |  |" ++ nl ++ nl ++ nl
         ++ "## Macros" ++ nl ++ nl
         ++ "| Macro | Value | Description |" ++ nl
         ++ "| --- | --- | --- |" ++ nl
         ++ "|  |  |  |" ++ nl ++ nl ++ nl
         ++ "## Discovery rules" ++ nl ++ nl
         ++ "| Name | Key | Description |" ++ nl
         ++ "| --- | --- | --- |" ++ nl
         ++ "|  |  |  |" ++ nl ++ nl ++ nl
         ++ "### Item prototypes for discovery: None" ++ nl ++ nl
         ++ "| Name | Key | Type | Value type | Units | Description |" ++ nl
         ++ "| --- | --- | --- | --- | --- | --- |" ++ nl
         ++ "|  |  |  |  |  |  |" ++ nl ++ nl ++ nl
         ++ "### Trigger prototypes for discovery: None" ++ nl ++ nl
         ++ "| Name | Expression | Priority | Description |" ++ nl
         ++ "| --- | --- | --- | --- |" ++ nl
         ++ "|  |  |  |  |" ++ nl ++ nl ++ nl), w0).
Proof. reflexivity. Qed.



Example extract_items_numeric :
  @extract_items (host_of_provider failing_provider) numeric_type_template
    false w0
  = (Ok [VDict [("name", VStr "CPU"); ("key", VStr ""); ("type", VInt 3);
                ("value_type", VStr ""); ("units", VStr "");
                ("description", VStr "")]], w0).
Proof. reflexivity. Qed.

(** The same item once the assembler has built its row: the number has
    become the text 3. *)
Example item_rows_numeric :
  (items <- @extract_items (host_of_provider failing_provider)
              numeric_type_template false ;;
   @item_rows quoting_runtime items) w0
  = (Ok [[VStr "CPU"; VStr ""; VStr "3"; VStr ""; VStr ""; VStr ""]], w0).
Proof. reflexivity. Qed.

(** An item whose type is an int of 4301 digits: the building of the rows
    raises, before the renderer is reached. *)
Example item_rows_long_int :
  @item_rows quoting_runtime
    [VDict [("name", VStr "CPU"); ("key", VStr "");
            ("type", VInt (10 ^ 4300)); ("value_type", VStr "");
            ("units", VStr ""); ("description", VStr "")]] w0
  = (Raise ValueError, w0).
Proof. vm_compute. reflexivity. Qed.

Example sanitize_sample :
  sanitize_description ("a|b" ++ nl ++ "c") = "a\|b<br>c".
Proof. reflexivity. Qed.

Example sanitize_backslash_bar : sanitize_description "\|" = "\\|".
Proof. reflexivity. Qed.

Example strip_sample :
  strip (bytes [194; 160; 32; 65; 226; 128; 131] ++ nl) = "A".
Proof. reflexivity. Qed.
(** * Further properties of the code *)

(** ** The sanitizer *)

(** X1.  Sanitizing a concatenation is concatenating the sanitized parts:
    both patterns are single characters, so no occurrence can straddle the
    seam. *)
Theorem sanitize_description_app (a b : string) :
  sanitize_description (a ++ b)
  = sanitize_description a ++ sanitize_description b.
Proof. rewrite !sanitize_flat. apply flat_app. Qed.

Lemma sanitize_length_flat (t : string) :
  String.length (flat sanitize_char t)
  = String.length t + 3 * count_char LF t + count_char BAR t.
Proof.
  induction t as [|c t IH]; [reflexivity|].
  cbn [flat]. rewrite length_app_s, IH.
  char_cases c; cbn [String.length count_char].
  - cbn. lia.
  - cbn. lia.
  - rewrite (eqb_false c LF), (eqb_false c BAR) by assumption. lia.
Qed.

(** X2.  The sanitized text is three characters longer for every line feed
    and one character longer for every bar of the input. *)
Theorem sanitize_description_length (t : string) :
  String.length (sanitize_description t)
  = String.length t + 3 * count_char LF t + count_char BAR t.
Proof. rewrite sanitize_flat. apply sanitize_length_flat. Qed.

Lemma flat_plain_text (t : string) :
  count_char LF t = 0 -> count_char BAR t = 0 -> flat sanitize_char t = t.
Proof.
  induction t as [|c t IH]; [reflexivity|].
  cbn [count_char flat]. intros H1 H2.
  destruct (Ascii.eqb_spec c LF) as [->|Hlf]; [discriminate|].
  destruct (Ascii.eqb_spec c BAR) as [->|Hbar]; [discriminate|].
  unfold sanitize_char. rewrite (eqb_false c LF), (eqb_false c BAR) by assumption.
  cbn. f_equal. apply IH; assumption.
Qed.

Lemma sanitize_fixed (t : string) :
  sanitize_description t = t <-> count_char LF t = 0 /\ count_char BAR t = 0.
Proof.
  rewrite sanitize_flat. split.
  - intro E. split.
    + rewrite <- E. apply sanitize_no_line_feed.
    + pose proof (sanitize_backslash_count t) as B. rewrite E in B. lia.
  - intros [H1 H2]. now apply flat_plain_text.
Qed.

(** X3.  The sanitizer returns its input unchanged exactly when the input
    has neither a line feed nor a bar. *)
Theorem sanitize_description_unchanged_iff (t : string) :
  sanitize_description t = t <-> count_char LF t = 0 /\ count_char BAR t = 0.
Proof. apply sanitize_fixed. Qed.

(** X4.  The sanitizer is not idempotent: sanitizing a second time gives
    the same text exactly when the input has no bar; otherwise every bar
    gains a second backslash. *)
Theorem sanitize_description_twice (t : string) :
  (sanitize_description (sanitize_description t) = sanitize_description t
   <-> count_char BAR t = 0)
  /\ count_char BACKSLASH (sanitize_description (sanitize_description t))
     = count_char BACKSLASH t + 2 * count_char BAR t.
Proof.
  split.
  - rewrite sanitize_fixed, !sanitize_flat.
    rewrite sanitize_no_line_feed, sanitize_bar_count. tauto.
  - rewrite (sanitize_flat (sanitize_description t)), sanitize_backslash_count.
    rewrite sanitize_flat, sanitize_backslash_count, sanitize_bar_count. lia.
Qed.

(** ** The table renderer *)

Lemma join_no_line_feed (sep : string) (parts : list string) :
  count_char LF sep = 0 ->
  Forall (fun p => count_char LF p = 0) parts ->
  count_char LF (join sep parts) = 0.
Proof.
  intros Hs HP. induction HP as [|p parts Hp HP IH]; [reflexivity|].
  destruct parts as [|q parts]; [exact Hp|].
  change (count_char LF (p ++ sep ++ join sep (q :: parts)) = 0).
  rewrite !count_char_app. lia.
Qed.

Lemma header_row_one_line (headers : list string) :
  Forall (fun h => count_char LF h = 0) headers ->
  count_char LF (header_row headers) = 1.
Proof.
  intro H. unfold header_row. cbn [append count_char].
  rewrite count_char_app, (join_no_line_feed " | " headers eq_refl H).
  reflexivity.
Qed.

Lemma separator_row_one_line (n : nat) : count_char LF (separator_row n) = 1.
Proof.
  unfold separator_row. cbn [append count_char].
  rewrite count_char_app, (join_no_line_feed " | " (repeat "---" n) eq_refl).
  - reflexivity.
  - apply Forall_forall. intros p Hp. apply repeat_spec in Hp. now subst.
Qed.

(** X5.  When no header holds a line feed and every cell can be turned
    into text, the rendered table has exactly two lines more than there
    are records, whatever the cells contain: the line feeds of the cells
    are all replaced. *)
Theorem markdown_table_line_count `{RT : Runtime} (headers : list string)
    (rows : list (list value)) (w : world) :
  Forall (fun h => count_char LF h = 0) headers ->
  printable_rows rows = true ->
  exists table,
    markdown_table headers rows w = (Ok table, w)
    /\ count_char LF table = 2 + List.length rows.
Proof.
  intros H Hp. exists (table_text headers rows).
  split; [now apply markdown_table_rows|].
  unfold table_text. rewrite !count_char_app.
  rewrite (header_row_one_line headers H), separator_row_one_line.
  assert (E : count_char LF (cat (map table_row rows)) = List.length rows).
  { clear Hp. induction rows as [|row rows IH]; [reflexivity|].
    cbn [map cat fold_right List.length].
    rewrite count_char_app, table_row_one_line.
    unfold cat in IH. rewrite IH. reflexivity. }
  rewrite E. reflexivity.
Qed.

Lemma markdown_table_line_count_witness :
  Forall (fun h => count_char LF h = 0) ["Name"; "Key"]
  /\ @printable_rows quoting_runtime
       [[VStr ("a" ++ nl ++ "b"); VInt 1]; [VNone; VStr "|"]] = true
  /\ exists table,
       @markdown_table quoting_runtime ["Name"; "Key"]
         [[VStr ("a" ++ nl ++ "b"); VInt 1]; [VNone; VStr "|"]] w0
       = (Ok table, w0)
       /\ count_char LF table = 2 + 2.
Proof.
  assert (H : Forall (fun h => count_char LF h = 0) ["Name"; "Key"])
    by (repeat constructor).
  split; [exact H|]. split; [reflexivity|].
  exact (@markdown_table_line_count quoting_runtime ["Name"; "Key"]
           [[VStr ("a" ++ nl ++ "b"); VInt 1]; [VNone; VStr "|"]] w0 H
           eq_refl).
Defined.

(** ** The augmenter *)

(** X6.  With the flag on and a text that is not blank, a provider that
    answers gives the translation, the marker and the original text in
    italics; the text, unstripped, is what was sent, and nothing is
    printed. *)
Theorem dual_description_translated `{HO : Host} (t ru : string)
    (w : world) :
  strip t <> "" ->
  provider_call (sent w) t = Returns ru ->
  dual_description (VStr t) true w
  = (Ok (VStr (ru ++ "<br><i>" ++ t ++ "</i>")),
     {| sent := sent w ++ [t]; diag := diag w |}).
Proof.
  intros Hs E. rewrite (dual_description_asks t w Hs), E. reflexivity.
Qed.

Lemma dual_description_translated_witness :
  strip " CPU load" <> ""
  /\ @provider_call (host_of_provider upper_provider) (sent w0) " CPU load"
     = Returns "RU: CPU load"
  /\ @dual_description (host_of_provider upper_provider) (VStr " CPU load")
       true w0
     = (Ok (VStr "RU: CPU load<br><i> CPU load</i>"),
        {| sent := [" CPU load"]; diag := [] |}).
Proof.
  assert (H : strip " CPU load" <> "") by discriminate.
  split; [exact H|]. split; [reflexivity|].
  exact (@dual_description_translated (host_of_provider upper_provider)
           " CPU load" "RU: CPU load" w0 H eq_refl).
Defined.

(** X7.  A description that is not a text (a null, a number, a list) is
    returned as it is with the flag off, and raises [AttributeError] with
    the flag on, before the provider is asked: [.strip()] is outside the
    [try] block. *)
Theorem dual_description_not_text `{HO : Host} (v : value) (w : world) :
  is_text v = false ->
  dual_description v false w = (Ok v, w)
  /\ dual_description v true w = (Raise AttributeError, w).
Proof.
  intro H. split; [reflexivity|].
  destruct v; try discriminate; reflexivity.
Qed.

Lemma dual_description_not_text_witness :
  is_text VNone = false
  /\ @dual_description (host_of_provider upper_provider) VNone true w0
     = (Raise AttributeError, w0).
Proof.
  split; [reflexivity|].
  apply (@dual_description_not_text (host_of_provider upper_provider) VNone
           w0).
  reflexivity.
Defined.

(** ** The extractors *)

Lemma get_dict (d : dict) (k : string) (default : value) (w : world) :
  get (VDict d) k default w = (Ok (field (VDict d) k default), w).
Proof. reflexivity. Qed.

(** A loop that appends one record per element is the list of the records
    of the elements. *)
Lemma for_each_collect {A B} (f : A -> M B) (l : list A) (acc : list B)
    (w : world) :
  for_each l (fun acc x => r <- f x ;; ret (acc ++ [r])%list) acc w
  = (ys <- comprehension f l ;; ret (acc ++ ys)%list) w.
Proof.
  revert acc w. induction l as [|x l IH]; intros acc w.
  - cbn. unfold bind, ret. now rewrite app_nil_r.
  - cbn [for_each comprehension]. rewrite !bind_assoc.
    destruct (f x w) as [[r|e] w1] eqn:E.
    + rewrite !(bind_ok _ _ _ _ _ E). cbv beta.
      rewrite bind_ret_l, IH, !bind_assoc.
      destruct (comprehension f l w1) as [[ys|e] w2] eqn:E2.
      * rewrite !(bind_ok _ _ _ _ _ E2). cbv beta. rewrite bind_ret_l.
        unfold ret. now rewrite <- app_assoc.
      * now rewrite !(bind_raise _ _ _ _ _ E2).
    + now rewrite !(bind_raise _ _ _ _ _ E).
Qed.

Lemma for_each_ext {A S} (P : A -> Prop) (body1 body2 : S -> A -> M S)
    (l : list A) :
  (forall s x w, P x -> body1 s x w = body2 s x w) ->
  Forall P l ->
  forall s w, for_each l body1 s w = for_each l body2 s w.
Proof.
  intros H F. induction F as [|x l Hx F IH]; intros s w; [reflexivity|].
  cbn [for_each]. unfold bind. rewrite (H s x w Hx).
  destruct (body2 s x w) as [[s'|e] w']; [apply IH|reflexivity].
Qed.

Lemma comprehension_length {A B} (f : A -> M B) (l : list A) (w w' : world)
    (ys : list B) :
  comprehension f l w = (Ok ys, w') -> List.length ys = List.length l.
Proof.
  revert w w' ys. induction l as [|x l IH]; intros w w' ys;
    cbn [comprehension].
  - unfold ret. now intros [= <- _].
  - unfold bind. destruct (f x w) as [[y|e] w1]; [|discriminate].
    destruct (comprehension f l w1) as [[zs|e] w2] eqn:E; [|discriminate].
    unfold ret. intros [= <- _]. cbn. f_equal. eapply IH, E.
Qed.

Lemma comprehension_Forall {A B} (f : A -> M B) (Q : B -> Prop) (l : list A)
    (w w' : world) (ys : list B) :
  (forall x w1 y w2, f x w1 = (Ok y, w2) -> Q y) ->
  comprehension f l w = (Ok ys, w') -> Forall Q ys.
Proof.
  intro H. revert w w' ys. induction l as [|x l IH]; intros w w' ys;
    cbn [comprehension].
  - unfold ret. intros [= <- _]. constructor.
  - unfold bind. destruct (f x w) as [[y|e] w1] eqn:Ey; [|discriminate].
    destruct (comprehension f l w1) as [[zs|e] w2] eqn:E; [|discriminate].
    unfold ret. intros [= <- _]. constructor; [eapply H, Ey|eapply IH, E].
Qed.

Section MoreExtractors.
Context `{HO : Host}.

(** The loop of an extractor is the list of the records of its entries. *)
Lemma records_loop (record : value -> M value)
    (body : list value -> value -> M (list value)) (tpl : value)
    (k : string) (w : world) :
  is_dict tpl = true ->
  all_entries is_dict tpl k = true ->
  (forall acc d w,
      body acc (VDict d) w
      = (r <- record (VDict d) ;; ret (acc ++ [r])%list) w) ->
  (coll <- get tpl k (VList []) ;; es <- iter coll ;; for_each es body []) w
  = comprehension record (entries tpl k) w.
Proof.
  intros Hd H Hbody. destruct tpl as [| | | | |d]; try discriminate.
  apply all_entries_inv in H. destruct H as [E F].
  rewrite (bind_ok _ _ w w _ (get_dict d k (VList []) w)), E.
  cbn [iter]. rewrite bind_ret_l.
  rewrite (for_each_ext (fun e => is_dict e = true) body
             (fun acc x => r <- record x ;; ret (acc ++ [r])%list)).
  - rewrite for_each_collect. unfold bind.
    now destruct (comprehension record (entries (VDict d) k) w) as [[ys|e] w'].
  - intros acc x w1 Hx. destruct x; try discriminate. apply Hbody.
  - exact F.
Qed.

Ltac record_body_eq :=
  let acc := fresh "acc" in
  let d := fresh "d" in
  let w1 := fresh "w" in
  intros acc d w1;
  repeat (rewrite (bind_ok _ _ _ _ _ (get_dict d _ _ w1)); cbv beta);
  unfold item_record, macro_record, rule_record;
  rewrite bind_assoc; unfold bind;
  destruct (dual_description _ _ w1) as [[? | ?] ?]; reflexivity.

(** X8.  On a template whose items are mappings, the items extractor
    builds one record per item, in the order of the items, calling the
    augmenter once for each: the record holds five fields copied from the
    item, empty text standing for an absent one, and for description
    what that call of the augmenter returns; an exception of the augmenter
    is the exception of the extractor.  A list that is returned has as
    many records as there are items. *)
Theorem extract_items_per_item (tpl : value) (flag : bool) (w : world) :
  is_dict tpl = true ->
  all_entries is_dict tpl "items" = true ->
  extract_items tpl flag w
  = comprehension (item_record flag) (entries tpl "items") w
  /\ (forall records w',
        extract_items tpl flag w = (Ok records, w') ->
        List.length records = List.length (entries tpl "items")).
Proof.
  intros Hd H.
  assert (E : extract_items tpl flag w
              = comprehension (item_record flag) (entries tpl "items") w).
  { unfold extract_items. apply records_loop; [assumption..|record_body_eq]. }
  split; [exact E|]. intros records w'. rewrite E.
  apply comprehension_length.
Qed.

(** X9.  On a template whose macros are mappings, the macros extractor
    builds one record per macro, in order, calling the augmenter once for
    each: the record holds the macro name and the value, empty text
    standing for an absent one, and for description what that call of the
    augmenter returns. *)
Theorem extract_macros_per_macro (tpl : value) (flag : bool) (w : world) :
  is_dict tpl = true ->
  all_entries is_dict tpl "macros" = true ->
  extract_macros tpl flag w
  = comprehension (macro_record flag) (entries tpl "macros") w
  /\ (forall records w',
        extract_macros tpl flag w = (Ok records, w') ->
        List.length records = List.length (entries tpl "macros")).
Proof.
  intros Hd H.
  assert (E : extract_macros tpl flag w
              = comprehension (macro_record flag) (entries tpl "macros") w).
  { unfold extract_macros. apply records_loop; [assumption..|record_body_eq]. }
  split; [exact E|]. intros records w'. rewrite E.
  apply comprehension_length.
Qed.

(** X10.  On a template whose discovery rules are mappings, the rules
    extractor builds one record per rule, in order, calling the augmenter
    once for each: the record holds the name and the key, empty text
    standing for an absent one, and for description what that call of the
    augmenter returns; the prototypes nested in a rule do not appear in
    its record. *)
Theorem extract_discovery_rules_per_rule (tpl : value) (flag : bool)
    (w : world) :
  is_dict tpl = true ->
  all_entries is_dict tpl "discovery_rules" = true ->
  extract_discovery_rules tpl flag w
  = comprehension (rule_record flag) (entries tpl "discovery_rules") w
  /\ (forall records w',
        extract_discovery_rules tpl flag w = (Ok records, w') ->
        List.length records = List.length (entries tpl "discovery_rules")
        /\ Forall (fun r => has_key r "item_prototypes" = false
                            /\ has_key r "trigger_prototypes" = false)
             records).
Proof.
  intros Hd H.
  assert (E : extract_discovery_rules tpl flag w
              = comprehension (rule_record flag)
                  (entries tpl "discovery_rules") w).
  { unfold extract_discovery_rules. apply records_loop; [assumption..|record_body_eq]. }
  split; [exact E|]. intros records w'. rewrite E. intro R.
  split; [eapply comprehension_length, R|].
  eapply comprehension_Forall; [|exact R].
  intros x w1 y w2. unfold rule_record, bind.
  destruct (dual_description _ flag w1) as [[desc|e] w3]; [|discriminate].
  unfold ret. intros [= <- _]. split; reflexivity.
Qed.

End MoreExtractors.

Lemma extract_items_per_item_witness :
  is_dict described_template = true
  /\ all_entries is_dict described_template "items" = true
  /\ @extract_items (host_of_provider upper_provider) described_template true
       w0
     = comprehension (@item_record (host_of_provider upper_provider) true)
         (entries described_template "items") w0.
Proof.
  do 2 (split; [reflexivity|]).
  apply (@extract_items_per_item (host_of_provider upper_provider)
           described_template true w0 eq_refl eq_refl).
Defined.

(** With a provider that answers, the description of the first item is
    the translation, the marker and the original. *)
Example extract_items_described :
  @extract_items (host_of_provider upper_provider) described_template true w0
  = (Ok [VDict [("name", VStr "CPU"); ("key", VStr ""); ("type", VStr "");
                ("value_type", VStr ""); ("units", VStr "");
                ("description", VStr "RU:Load<br><i>Load</i>")];
         VDict [("name", VStr "Disk"); ("key", VStr ""); ("type", VStr "");
                ("value_type", VStr ""); ("units", VStr "");
                ("description", VStr "")]],
     {| sent := ["Load"]; diag := [] |}).
Proof. reflexivity. Qed.

Lemma extract_macros_per_macro_witness :
  is_dict described_template = true
  /\ all_entries is_dict described_template "macros" = true
  /\ @extract_macros (host_of_provider upper_provider) described_template true
       w0
     = comprehension (@macro_record (host_of_provider upper_provider) true)
         (entries described_template "macros") w0.
Proof.
  do 2 (split; [reflexivity|]).
  apply (@extract_macros_per_macro (host_of_provider upper_provider)
           described_template true w0 eq_refl eq_refl).
Defined.

Example extract_macros_described :
  @extract_macros (host_of_provider upper_provider) described_template true w0
  = (Ok [VDict [("macro", VStr "{$LIMIT}"); ("value", VStr "");
                ("description", VStr "RU:Limit<br><i>Limit</i>")]],
     {| sent := ["Limit"]; diag := [] |}).
Proof. reflexivity. Qed.

(** A macro with a name only and a macro with nothing: empty text stands
    for every absent field. *)
Example extract_macros_sparse :
  @extract_macros (host_of_provider upper_provider) sparse_template true w0
  = (Ok [VDict [("macro", VStr "{$LIMIT}"); ("value", VStr "");
                ("description", VStr "")];
         VDict [("macro", VStr ""); ("value", VStr "");
                ("description", VStr "")]], w0).
Proof. reflexivity. Qed.

Lemma extract_discovery_rules_per_rule_witness :
  is_dict described_template = true
  /\ all_entries is_dict described_template "discovery_rules" = true
  /\ @extract_discovery_rules (host_of_provider upper_provider)
       described_template true w0
     = comprehension (@rule_record (host_of_provider upper_provider) true)
         (entries described_template "discovery_rules") w0.
Proof.
  do 2 (split; [reflexivity|]).
  apply (@extract_discovery_rules_per_rule (host_of_provider upper_provider)
           described_template true w0 eq_refl eq_refl).
Defined.

Example extract_discovery_rules_described :
  @extract_discovery_rules (host_of_provider upper_provider)
    described_template true w0
  = (Ok [VDict [("name", VStr "FS"); ("key", VStr "");
                ("description", VStr "RU:Disks<br><i>Disks</i>")]],
     {| sent := ["Disks"]; diag := [] |}).
Proof. reflexivity. Qed.

(** ** Collections and entries of the wrong kind *)

Lemma chars_not_empty (c : ascii) (s : string) :
  exists x xs, chars (String c s) = x :: xs.
Proof.
  cbn [chars]. destruct (chars s) as [|[|c' r] rs]; eauto.
  destruct (is_continuation c'); eauto.
Qed.

Section WrongKind.
Context `{RT : Runtime} `{PV : Provider}.

(** X11.  An items collection that is present but is not a list: a null, a
    bool or a number raises [TypeError]; an empty text or an empty mapping
    gives no record; a text or a mapping that is not empty raises
    [AttributeError] at its first element.  Nothing is sent or printed. *)
Theorem extract_items_collection_not_list (d : dict) (v : value)
    (flag : bool) (w : world) :
  lookup d "items" = Some v ->
  (not_iterable v = true ->
   extract_items (VDict d) flag w = (Raise TypeError, w))
  /\ (v = VStr "" \/ v = VDict [] ->
      extract_items (VDict d) flag w = (Ok [], w))
  /\ (iterates_over_text v = true ->
      extract_items (VDict d) flag w = (Raise AttributeError, w)).
Proof.
  intro E. unfold extract_items. unfold bind at 1. cbn [get ret]. rewrite E.
  repeat split.
  - intro H. destruct v; try discriminate; reflexivity.
  - intros [->| ->]; reflexivity.
  - intro H. destruct v as [| | |s| |[|[k x] d']]; try discriminate.
    + destruct s as [|c s]; [discriminate|].
      unfold bind at 1. cbn [iter ret].
      destruct (chars_not_empty c s) as (x & xs & ->). reflexivity.
    + reflexivity.
Qed.

Lemma for_each_app {A S} (l1 l2 : list A) (body : S -> A -> M S) (s : S)
    (w : world) :
  for_each (l1 ++ l2) body s w
  = bind (for_each l1 body s) (for_each l2 body) w.
Proof.
  revert s w. induction l1 as [|x l1 IH]; intros s w; cbn [app for_each].
  - reflexivity.
  - unfold bind in *.
    destruct (body s x w) as [[s'|e] w']; [apply IH|reflexivity].
Qed.

(** X12.  An item that is not a mapping makes the items extractor raise
    [AttributeError], also when the items before it are well formed: the
    records built so far are lost. *)
Theorem extract_items_entry_not_mapping (d : dict) (before after : list value)
    (v : value) (flag : bool) (w : world) :
  lookup d "items" = Some (VList (before ++ v :: after)) ->
  forallb (shaped_entry flag) before = true ->
  is_dict v = false ->
  exists w', extract_items (VDict d) flag w = (Raise AttributeError, w').
Proof.
  intros E Hb Hv.
  assert (Hrec : all_entries (shaped_entry flag)
                   (VDict (("items", VList before) :: d)) "items" = true)
    by exact Hb.
  destruct (extract_items_records (VDict (("items", VList before) :: d))
              flag eq_refl Hrec w) as (recs & w' & Erecs & _).
  exists w'. revert Erecs. unfold extract_items.
  assert (G : get (VDict (("items", VList before) :: d)) "items" (VList [])
              = ret (VList before)) by reflexivity.
  assert (G' : get (VDict d) "items" (VList [])
               = ret (VList (before ++ v :: after)))
    by (cbn [get]; now rewrite E).
  rewrite G, G', !bind_ret_l. cbn [iter]. rewrite !bind_ret_l.
  intro Erecs. rewrite for_each_app, (bind_ok _ _ _ _ _ Erecs).
  cbn [for_each]. destruct v; try discriminate; reflexivity.
Qed.

(** X13.  A template whose description is present and is a null, a
    boolean, a number, a list or a mapping makes the assembler raise
    [AttributeError] with either flag state, once the title is written; a
    document whose first template is such a template yields no text at
    all. *)
Theorem description_not_text_raises (d : dict) (v : value)
    (rest : list value) (flag : bool) (md : string) (w : world) :
  lookup d "description" = Some v ->
  v = VNone \/ (exists b, v = VBool b) \/ (exists z, v = VInt z)
  \/ (exists l, v = VList l) \/ (exists m, v = VDict m) ->
  printable (field (VDict d) "template" (VStr "")) = true ->
  emit_template flag md (VDict d) w = (Raise AttributeError, w)
  /\ main (document (VDict d :: rest)) flag w = (Raise AttributeError, w).
Proof.
  intros E Hv Hp.
  assert (Ht : is_text v = false).
  { destruct Hv as [->|[[b ->]|[[z ->]|[[l ->]|[m ->]]]]]; reflexivity. }
  assert (H : forall md, emit_template flag md (VDict d) w
                         = (Raise AttributeError, w)).
  { intro md'. unfold emit_template, emit_heading.
    rewrite !bind_assoc, (bind_ok _ _ _ _ _ (get_dict d _ _ w)). cbv beta.
    rewrite !bind_assoc, (bind_ok _ _ _ _ _ (str_printable _ w Hp)).
    cbv beta zeta.
    rewrite !bind_assoc, (bind_ok _ _ _ _ _ (get_dict d _ _ w)). cbv beta.
    rewrite !bind_assoc. apply bind_raise.
    cbn [field]. rewrite E. destruct v; try discriminate; reflexivity. }
  split; [apply H|].
  unfold main.
  assert (G : get (document (VDict d :: rest)) "zabbix_export" (VDict [])
              = ret (VDict [("templates", VList (VDict d :: rest))]))
    by reflexivity.
  assert (G' : get (VDict [("templates", VList (VDict d :: rest))])
                 "templates" (VList [])
               = ret (VList (VDict d :: rest))) by reflexivity.
  rewrite G, bind_ret_l, G', bind_ret_l. cbn [iter]. rewrite bind_ret_l.
  cbn [for_each]. unfold bind. now rewrite H.
Qed.

(** X14.  For a discovery rule without a name whose numbers can be turned
    into text, the heading of its Item
    prototypes subsection reads [None], while the row of the rule in the
    Discovery rules table has an empty name: the heading looks the name up
    without a default. *)
Theorem prototypes_heading_without_name (dr : value) (flag : bool)
    (md : string) :
  shaped_rule flag dr = true ->
  printable dr = true ->
  has_key dr "name" = false ->
  entries dr "item_prototypes" <> [] ->
  succeeds (emit_item_prototypes dr flag md)
    (fun out =>
       exists rows,
         out = md ++ "### Item prototypes for discovery: None" ++ nl ++ nl
                  ++ table_text item_headers rows ++ nl ++ nl)
  /\ (forall rec, rule_record_of flag dr rec ->
                  field rec "name" VNone = VStr "").
Proof.
  intros H Hp Hn Hne. apply shaped_rule_inv in H.
  destruct H as (He & Hi & _).
  apply shaped_entry_inv in He. destruct He as [Hd _]. split.
  - eapply succeeds_weaken; [now apply emit_item_prototypes_section|].
    intros out (rows & F & ->). exists rows.
    rewrite (field_absent dr "name" VNone Hn).
    destruct rows as [|row rows].
    + inversion F as [E|]; subst. now elim Hne.
    + cbn [section py_str py_repr]. now rewrite !app_assoc_s.
  - intros rec (desc & _ & ->). cbn.
    now rewrite (field_absent dr "name" (VStr "") Hn).
Qed.

End WrongKind.

(** ** The output only grows *)

Lemma prefixed_prefixed (a b : string) (r : result string * world) :
  prefixed a (prefixed b r) = prefixed (a ++ b) r.
Proof. destruct r as [[s|e] w]; cbn; [now rewrite app_assoc_s|reflexivity]. Qed.

Lemma prefix_bind (f g : string -> M string) :
  (forall md w, f md w = prefixed md (f "" w)) ->
  (forall md w, g md w = prefixed md (g "" w)) ->
  forall md w, bind (f md) g w = prefixed md (bind (f "") g w).
Proof.
  intros Hf Hg md w. unfold bind. rewrite Hf.
  destruct (f "" w) as [[s|e] w1]; cbn [prefixed]; [|reflexivity].
  now rewrite (Hg (md ++ s)), (Hg s), prefixed_prefixed.
Qed.

Lemma prefix_for_each {A} (body : string -> A -> M string) (l : list A) :
  (forall x md w, body md x w = prefixed md (body "" x w)) ->
  forall md w, for_each l body md w = prefixed md (for_each l body "" w).
Proof.
  intro Hbody. induction l as [|x l IH]; intros md w; cbn [for_each].
  - cbn. now rewrite app_empty_r.
  - apply (prefix_bind (fun md => body md x) (for_each l body));
      [apply Hbody|exact IH].
Qed.

Lemma section_block_prefix (extract : M (list value))
    (rowsf : list value -> M (list (list value)))
    (tablef : list (list value) -> M string)
    (heading md : string) (w : world) :
  bind extract
    (fun recs =>
       if truthy (VList recs)
       then bind (rowsf recs)
              (fun rows =>
                 bind (tablef rows)
                   (fun table => ret ((md ++ heading) ++ table ++ nl ++ nl)))
       else ret md) w
  = prefixed md
      (bind extract
         (fun recs =>
            if truthy (VList recs)
            then bind (rowsf recs)
                   (fun rows =>
                      bind (tablef rows)
                        (fun table =>
                           ret (("" ++ heading) ++ table ++ nl ++ nl)))
            else ret "") w).
Proof.
  unfold bind. destruct (extract w) as [[recs|e] w1]; [|reflexivity].
  destruct recs as [|r recs]; cbn [truthy].
  - cbn. now rewrite app_empty_r.
  - destruct (rowsf (r :: recs) w1) as [[rows|e] w2]; [|reflexivity].
    destruct (tablef rows w2) as [[table|e] w3]; [|reflexivity].
    cbn. now rewrite app_assoc_s.
Qed.

Section Growth.
Context `{RT : Runtime} `{HO : Host}.

Lemma emit_heading_prefix (tpl : value) (flag : bool) (md : string)
    (w : world) :
  emit_heading tpl flag md w = prefixed md (emit_heading tpl flag "" w).
Proof.
  unfold emit_heading. cbv zeta. unfold bind.
  destruct (get tpl "template" (VStr "") w) as [[title|e] w0']; [|reflexivity].
  destruct (str title w0') as [[title'|e] w1]; [|reflexivity].
  destruct (get tpl "description" (VStr "") w1) as [[d|e] w2]; [|reflexivity].
  destruct (str_method d w2) as [[s|e] w3]; [|reflexivity].
  destruct (truthy (VStr (strip s))).
  - destruct (dual_description (VStr (strip s)) flag w3) as [[dd|e] w4];
      [|reflexivity].
    destruct (str_method dd w4) as [[x|e] w5]; [|reflexivity].
    cbn [prefixed ret]. now rewrite ?app_assoc_s.
  - reflexivity.
Qed.

Lemma emit_items_prefix (tpl : value) (flag : bool) (md : string) (w : world) :
  emit_items tpl flag md w = prefixed md (emit_items tpl flag "" w).
Proof.
  unfold emit_items. cbv zeta.
  apply (section_block_prefix _ _ (markdown_table item_headers)
           ("## Items" ++ nl ++ nl)).
Qed.

Lemma emit_triggers_prefix (tpl : value) (flag : bool) (md : string)
    (w : world) :
  emit_triggers tpl flag md w = prefixed md (emit_triggers tpl flag "" w).
Proof.
  unfold emit_triggers. cbv zeta.
  apply (section_block_prefix _ _ (markdown_table trigger_headers)
           ("## Triggers" ++ nl ++ nl)).
Qed.

Lemma emit_macros_prefix (tpl : value) (flag : bool) (md : string) (w : world) :
  emit_macros tpl flag md w = prefixed md (emit_macros tpl flag "" w).
Proof.
  unfold emit_macros. cbv zeta.
  apply (section_block_prefix _ _ (markdown_table macro_headers)
           ("## Macros" ++ nl ++ nl)).
Qed.

Lemma emit_item_prototypes_prefix (dr : value) (flag : bool) (md : string)
    (w : world) :
  emit_item_prototypes dr flag md w
  = prefixed md (emit_item_prototypes dr flag "" w).
Proof.
  unfold emit_item_prototypes. cbv zeta. unfold bind.
  destruct (get dr "item_prototypes" (VList []) w) as [[ips|e] w1];
    [|reflexivity].
  destruct (truthy ips); [|cbn; now rewrite app_empty_r].
  destruct (get dr "name" VNone w1) as [[name|e] w2']; [|reflexivity].
  destruct (str name w2') as [[name'|e] w2]; [|reflexivity].
  destruct (iter ips w2) as [[l|e] w3]; [|reflexivity].
  destruct (item_prototype_rows l flag w3) as [[rows|e] w4]; [|reflexivity].
  destruct (markdown_table item_headers rows w4) as [[table|e] w5];
    [|reflexivity].
  cbn [prefixed ret]. now rewrite ?app_assoc_s.
Qed.

Lemma emit_trigger_prototypes_prefix (dr : value) (flag : bool) (md : string)
    (w : world) :
  emit_trigger_prototypes dr flag md w
  = prefixed md (emit_trigger_prototypes dr flag "" w).
Proof.
  unfold emit_trigger_prototypes. cbv zeta. unfold bind.
  destruct (get dr "trigger_prototypes" (VList []) w) as [[tps|e] w1];
    [|reflexivity].
  destruct (truthy tps); [|cbn; now rewrite app_empty_r].
  destruct (get dr "name" VNone w1) as [[name|e] w2']; [|reflexivity].
  destruct (str name w2') as [[name'|e] w2]; [|reflexivity].
  destruct (iter tps w2) as [[l|e] w3]; [|reflexivity].
  destruct (trigger_prototype_rows l flag w3) as [[rows|e] w4];
    [|reflexivity].
  destruct (markdown_table trigger_headers rows w4) as [[table|e] w5];
    [|reflexivity].
  cbn [prefixed ret]. now rewrite ?app_assoc_s.
Qed.

Lemma emit_discovery_rules_prefix (tpl : value) (flag : bool) (md : string)
    (w : world) :
  emit_discovery_rules tpl flag md w
  = prefixed md (emit_discovery_rules tpl flag "" w).
Proof.
  unfold emit_discovery_rules. cbv zeta. unfold bind.
  destruct (extract_discovery_rules tpl flag w) as [[recs|e] w1];
    [|reflexivity].
  destruct (truthy (VList recs)); [|cbn; now rewrite app_empty_r].
  destruct (rule_rows recs w1) as [[rows|e] w2']; [|reflexivity].
  destruct (markdown_table rule_headers rows w2') as [[table|e] w2];
    [|reflexivity].
  destruct (get tpl "discovery_rules" (VList []) w2) as [[coll|e] w3];
    [|reflexivity].
  destruct (iter coll w3) as [[drs|e] w4]; [|reflexivity].
  assert (Hbody : forall (dr : value) (md' : string) (w' : world),
             bind (emit_item_prototypes dr flag md')
               (emit_trigger_prototypes dr flag) w'
             = prefixed md'
                 (bind (emit_item_prototypes dr flag "")
                    (emit_trigger_prototypes dr flag) w')).
  { intros dr md' w'.
    apply (prefix_bind (emit_item_prototypes dr flag)
             (emit_trigger_prototypes dr flag)).
    - apply emit_item_prototypes_prefix.
    - apply emit_trigger_prototypes_prefix. }
  pose proof (prefix_for_each
                (fun md' dr => bind (emit_item_prototypes dr flag md')
                                 (emit_trigger_prototypes dr flag))
                drs Hbody) as F.
  unfold bind in F.
  rewrite F. symmetry. rewrite F. symmetry.
  rewrite prefixed_prefixed. f_equal. now rewrite ?app_assoc_s.
Qed.

Lemma emit_template_prefix (tpl : value) (flag : bool) (md : string)
    (w : world) :
  emit_template flag md tpl w = prefixed md (emit_template flag "" tpl w).
Proof.
  unfold emit_template.
  apply (prefix_bind (emit_heading tpl flag)); [apply emit_heading_prefix|].
  apply (prefix_bind (emit_items tpl flag)); [apply emit_items_prefix|].
  apply (prefix_bind (emit_triggers tpl flag)); [apply emit_triggers_prefix|].
  apply (prefix_bind (emit_macros tpl flag)); [apply emit_macros_prefix|].
  apply emit_discovery_rules_prefix.
Qed.

Lemma main_document (templates : list value) (flag : bool) (w : world) :
  main (document templates) flag w
  = for_each templates (emit_template flag) "" w.
Proof. reflexivity. Qed.

(** X15.  The pass over a template never alters the text emitted before
    it: what it returns is that text followed by what it returns when
    started on the empty text, and it raises in the same cases. *)
Theorem emit_template_extends (tpl : value) (flag : bool) (md : string)
    (w : world) :
  emit_template flag md tpl w = prefixed md (emit_template flag "" tpl w).
Proof. apply emit_template_prefix. Qed.

(** X16.  The text of a document is the concatenation of the texts of its
    templates, in document order: rendering the templates [a ++ b] is
    rendering [a], then [b] in the world [a] left, and joining the two
    texts; an exception in either part is the exception of the whole.
    A document without templates gives the empty text. *)
Theorem main_concatenates (a b : list value) (flag : bool) (w : world) :
  main (document (a ++ b)) flag w
  = match main (document a) flag w with
    | (Ok text_a, w') => prefixed text_a (main (document b) flag w')
    | (Raise e, w') => (Raise e, w')
    end
  /\ main (document []) flag w = (Ok "", w).
Proof.
  split; [|reflexivity].
  rewrite !main_document, for_each_app. unfold bind.
  destruct (for_each a (emit_template flag) "" w) as [[s|e] w']; [|reflexivity].
  rewrite main_document. apply prefix_for_each.
  intros tpl md w''. apply emit_template_prefix.
Qed.

End Growth.

(** ** What the runs do to the world *)

Lemma agree_self_world {A} (m : M A) (w : world) :
  agree m m -> snd (m w) = w.
Proof. intros (r & E & _). now rewrite E. Qed.

Lemma preserves_pure {A} (I : world -> Prop) (m : M A) :
  agree m m -> preserves I m.
Proof. intros H w Hw. now rewrite (agree_self_world m w H). Qed.

Lemma preserves_bind {A B} (I : world -> Prop) (m : M A) (k : A -> M B) :
  preserves I m -> (forall a, preserves I (k a)) -> preserves I (bind m k).
Proof.
  intros Hm Hk w Hw. unfold bind. specialize (Hm w Hw).
  destruct (m w) as [[a|e] w1]; cbn [snd] in *; [now apply Hk|assumption].
Qed.

Lemma preserves_for_each {A S} (I : world -> Prop) (body : S -> A -> M S)
    (l : list A) :
  (forall s x, preserves I (body s x)) ->
  forall s, preserves I (for_each l body s).
Proof.
  intro Hbody. induction l as [|x l IH]; intro s; cbn [for_each].
  - apply preserves_pure, agree_ret.
  - apply preserves_bind; [apply Hbody|exact IH].
Qed.

Lemma preserves_comprehension {A B} (I : world -> Prop) (f : A -> M B)
    (l : list A) :
  (forall x, preserves I (f x)) -> preserves I (comprehension f l).
Proof.
  intro Hf. induction l as [|x l IH]; cbn [comprehension].
  - apply preserves_pure, agree_ret.
  - apply preserves_bind; [apply Hf|]. intro y.
    apply preserves_bind; [exact IH|]. intro ys.
    apply preserves_pure, agree_ret.
Qed.

Lemma preserves_if {A} (I : world -> Prop) (b : bool) (m n : M A) :
  preserves I m -> preserves I n -> preserves I (if b then m else n).
Proof. now destruct b. Qed.

Section Worlds.
Context `{RT : Runtime} `{HO : Host}.
Variable I : world -> Prop.
Hypothesis dual_keeps : forall d flag, preserves I (dual_description d flag).

Ltac preserves_step :=
  first
    [ apply dual_keeps
    | apply preserves_pure;
      first [ apply agree_ret | apply agree_raise | apply agree_get
            | apply agree_subscript | apply agree_iter
            | apply agree_str_method | apply agree_str ]
    | apply preserves_if
    | apply preserves_bind; [|intro]
    | apply preserves_for_each; intros
    | apply preserves_comprehension; intro ].

Ltac preserves_auto := cbv zeta; repeat preserves_step.

Lemma preserves_emit_template (flag : bool) (md : string) (tpl : value) :
  preserves I (emit_template flag md tpl).
Proof.
  unfold emit_template, emit_heading, emit_items, emit_triggers, emit_macros,
    emit_discovery_rules, emit_item_prototypes, emit_trigger_prototypes,
    extract_items, extract_triggers, extract_macros, extract_discovery_rules.
  preserves_auto.
Qed.

Lemma preserves_main (data : value) (flag : bool) :
  preserves I (main data flag).
Proof.
  unfold main.
  repeat (apply preserves_bind;
          [apply preserves_pure; first [apply agree_get|apply agree_iter]
          |intro]).
  apply preserves_for_each. intros. apply preserves_emit_template.
Qed.

End Worlds.

Lemma dual_keeps_diag `{HO : Host} (lines : list string) :
  never_fails HO ->
  forall d flag, preserves (fun w => diag w = lines) (dual_description d flag).
Proof.
  intros Hnf d flag w Hw. destruct flag; [|exact Hw].
  destruct d; try exact Hw.
  destruct (String.eqb_spec (strip s) "") as [E|E].
  - now rewrite (dual_description_blank s w E).
  - rewrite (dual_description_asks s w E).
    destruct (Hnf (sent w) s) as [ru ->]. exact Hw.
Qed.

Lemma dual_keeps_sent `{HO : Host} :
  forall d flag,
    preserves (fun w => Forall (fun t => strip t <> "") (sent w))
      (dual_description d flag).
Proof.
  intros d flag w Hw. destruct flag; [|exact Hw].
  destruct d; try exact Hw.
  destruct (String.eqb_spec (strip s) "") as [E|E].
  - now rewrite (dual_description_blank s w E).
  - assert (F : Forall (fun t => strip t <> "") (sent w ++ [s])).
    { apply Forall_app. split; [exact Hw|]. now constructor. }
    rewrite (dual_description_asks s w E).
    destruct (provider_call (sent w) s) as [ru|e message]; [exact F|].
    destruct (caught e); [|exact F].
    now destruct (print_error (diag w) ("Ошибка перевода: " ++ message)).
Qed.

(** X17.  When the provider answers every call, nothing is printed while
    the text is assembled, whatever the document and the flag, and also
    when the assembly ends with an exception.  The one line a run prints
    is the closing message, after the text has been assembled and written
    to the file: a run whose assembly raises, or whose file cannot be
    written, prints nothing. *)
Theorem run_prints_closing_line_only `{RT : Runtime} `{HO : Host}
    (data : value) (flag : bool) (output_md : string) (w : world) :
  never_fails HO ->
  diag (snd (main data flag w)) = diag w
  /\ (forall e w1,
        main data flag w = (Raise e, w1) ->
        run data flag output_md w = (Raise e, w1))
  /\ (forall md w1,
        main data flag w = (Ok md, w1) ->
        run data flag output_md w
        = match write_error output_md md with
          | Some e => (Raise e, w1)
          | None =>
              match print_error (diag w)
                      ("Документация сохранена в " ++ output_md) with
              | Some e => (Raise e, w1)
              | None =>
                  (Ok md,
                   {| sent := sent w1;
                      diag := diag w
                              ++ ["Документация сохранена в " ++ output_md] |})
              end
          end).
Proof.
  intro H.
  assert (D : diag (snd (main data flag w)) = diag w).
  { apply (preserves_main (fun w' => diag w' = diag w) (dual_keeps_diag _ H)).
    reflexivity. }
  split; [exact D|]. split.
  - intros e w1 E. unfold run. now rewrite (bind_raise _ _ _ _ _ E).
  - intros md w1 E. rewrite E in D. cbn [snd] in D.
    unfold run. rewrite (bind_ok _ _ _ _ _ E).
    unfold bind, write_file, print, ret.
    destruct (write_error output_md md); [reflexivity|].
    rewrite D.
    now destruct (print_error (diag w)
                    ("Документация сохранена в " ++ output_md)).
Qed.

(** X18.  The provider is never asked to translate a blank text: if every
    text sent so far has something left after stripping, so has every text
    sent by the end of the run. *)
Theorem main_sends_no_blank_text `{RT : Runtime} `{HO : Host}
    (data : value) (flag : bool) (w : world) :
  Forall (fun t => strip t <> "") (sent w) ->
  Forall (fun t => strip t <> "") (sent (snd (main data flag w))).
Proof.
  apply (preserves_main
           (fun w' => Forall (fun t => strip t <> "") (sent w'))
           dual_keeps_sent).
Qed.

(** ** A provider that is down *)

Lemma falls_back_pure {A} (m : M A) : agree m m -> falls_back m m.
Proof.
  intros (r & E & _) w1 w2 a w1' H. rewrite E in H. rewrite E.
  now injection H as -> _.
Qed.

Lemma falls_back_bind {A B} (m1 m2 : M A) (k1 k2 : A -> M B) :
  falls_back m1 m2 -> (forall a, falls_back (k1 a) (k2 a)) ->
  falls_back (bind m1 k1) (bind m2 k2).
Proof.
  intros Hm Hk w1 w2 b w1' H. unfold bind in *.
  destruct (m1 w1) as [[a|e] u1] eqn:E1; [|discriminate].
  specialize (Hm w1 w2 a u1 E1).
  destruct (m2 w2) as [[a'|e'] u2]; cbn [fst] in Hm; [|discriminate].
  injection Hm as ->. exact (Hk a u1 u2 b w1' H).
Qed.

Lemma falls_back_for_each {A S} (body1 body2 : S -> A -> M S) (l : list A) :
  (forall s x, falls_back (body1 s x) (body2 s x)) ->
  forall s, falls_back (for_each l body1 s) (for_each l body2 s).
Proof.
  intro Hbody. induction l as [|x l IH]; intro s; cbn [for_each].
  - apply falls_back_pure, agree_ret.
  - apply falls_back_bind; [apply Hbody|exact IH].
Qed.

Lemma falls_back_comprehension {A B} (f1 f2 : A -> M B) (l : list A) :
  (forall x, falls_back (f1 x) (f2 x)) ->
  falls_back (comprehension f1 l) (comprehension f2 l).
Proof.
  intro Hf. induction l as [|x l IH]; cbn [comprehension].
  - apply falls_back_pure, agree_ret.
  - apply falls_back_bind; [apply Hf|]. intro y.
    apply falls_back_bind; [exact IH|]. intro ys.
    apply falls_back_pure, agree_ret.
Qed.

Lemma falls_back_if {A} (b : bool) (m1 m2 n1 n2 : M A) :
  falls_back m1 m2 -> falls_back n1 n2 ->
  falls_back (if b then m1 else n1) (if b then m2 else n2).
Proof. now destruct b. Qed.

Lemma same_refl {A} (m : M A) : same m m.
Proof. now intro w. Qed.

Lemma same_bind {A B} (m1 m2 : M A) (k1 k2 : A -> M B) :
  same m1 m2 -> (forall a, same (k1 a) (k2 a)) -> same (bind m1 k1) (bind m2 k2).
Proof.
  intros Hm Hk w. unfold bind. rewrite Hm.
  destruct (m2 w) as [[a|e] w']; [apply Hk|reflexivity].
Qed.

Lemma same_for_each {A S} (body1 body2 : S -> A -> M S) (l : list A) :
  (forall s x, same (body1 s x) (body2 s x)) ->
  forall s, same (for_each l body1 s) (for_each l body2 s).
Proof.
  intro Hbody. induction l as [|x l IH]; intro s; cbn [for_each].
  - apply same_refl.
  - apply same_bind; [apply Hbody|exact IH].
Qed.

Lemma same_comprehension {A B} (f1 f2 : A -> M B) (l : list A) :
  (forall x, same (f1 x) (f2 x)) ->
  same (comprehension f1 l) (comprehension f2 l).
Proof.
  intro Hf. induction l as [|x l IH]; cbn [comprehension].
  - apply same_refl.
  - apply same_bind; [apply Hf|]. intro y.
    apply same_bind; [exact IH|]. intro ys. apply same_refl.
Qed.

Lemma same_if {A} (b : bool) (m1 m2 n1 n2 : M A) :
  same m1 m2 -> same n1 n2 ->
  same (if b then m1 else n1) (if b then m2 else n2).
Proof. now destruct b. Qed.

(** A host whose provider raises only what the handler catches, and whose
    diagnostic stream takes every line, runs as the provider it stands
    for. *)
Section HostAsProvider.
Context `{RT : Runtime} `{HO : Host}.
Hypothesis raises_caught :
  forall history text e message,
    provider_call history text = Raises e message -> caught e = true.
Hypothesis prints : forall printed line, print_error printed line = None.

Lemma same_dual (d : value) (flag : bool) :
  same (@dual_description HO d flag)
       (@dual_description (host_of_provider (provider_of HO)) d flag).
Proof.
  intro w. destruct flag; [|reflexivity]. destruct d; try reflexivity.
  destruct (String.eqb_spec (strip s) "") as [E|E].
  - now rewrite !(dual_description_blank s w E).
  - rewrite (@dual_description_asks HO s w E),
      (@dual_description_asks (host_of_provider (provider_of HO)) s w E).
    cbn [provider_call print_error host_of_provider provider_of translate].
    destruct (provider_call (sent w) s) as [ru|e message] eqn:P;
      [reflexivity|].
    now rewrite (raises_caught _ _ _ _ P), prints.
Qed.

Ltac same_step :=
  first
    [ apply same_dual
    | apply same_bind; [|intro]
    | apply same_for_each; intros
    | apply same_comprehension; intro
    | apply same_if
    | apply same_refl ].

Lemma same_emit_template (flag : bool) (md : string) (tpl : value) :
  same (@emit_template RT HO flag md tpl)
       (@emit_template RT (host_of_provider (provider_of HO)) flag md tpl).
Proof.
  unfold emit_template, emit_heading, emit_items, emit_triggers, emit_macros,
    emit_discovery_rules, emit_item_prototypes, emit_trigger_prototypes,
    extract_items, extract_triggers, extract_macros, extract_discovery_rules,
    item_rows, trigger_rows, macro_rows, rule_rows, item_prototype_rows,
    trigger_prototype_rows.
  cbv zeta. repeat same_step.
Qed.

Lemma same_main (data : value) (flag : bool) :
  same (@main RT HO data flag)
       (@main RT (host_of_provider (provider_of HO)) data flag).
Proof.
  unfold main.
  repeat (apply same_bind; [apply same_refl|intro]).
  apply same_for_each. intros. apply same_emit_template.
Qed.

End HostAsProvider.

Section ProviderDown.
Context `{RT : Runtime} `{HO : Host}.
Hypothesis down : always_fails HO.

Lemma down_caught (history : list string) (text : string) (e : exn)
    (message : string) :
  provider_call history text = Raises e message -> caught e = true.
Proof.
  intro E. destruct (down history text) as (e' & m' & E' & C).
  rewrite E in E'. now injection E' as -> _.
Qed.

Lemma falls_back_dual (d : value) :
  falls_back (dual_description d true) (dual_description d false).
Proof.
  intros w1 w2 a w1' H. cbn [dual_description negb ret fst].
  destruct d; try discriminate.
  destruct (String.eqb_spec (strip s) "") as [E|E].
  - rewrite (dual_description_blank s w1 E) in H. now injection H as <- _.
  - rewrite (dual_description_asks s w1 E) in H.
    destruct (down (sent w1) s) as (e & message & P & C).
    rewrite P, C in H.
    destruct (print_error (diag w1) ("Ошибка перевода: " ++ message));
      [discriminate|].
    now injection H as <- _.
Qed.

Ltac falls_back_step :=
  first
    [ apply falls_back_dual
    | apply falls_back_pure;
      first [ apply agree_ret | apply agree_raise | apply agree_get
            | apply agree_subscript | apply agree_iter
            | apply agree_str_method | apply agree_str ]
    | apply falls_back_if
    | apply falls_back_bind; [|intro]
    | apply falls_back_for_each; intros
    | apply falls_back_comprehension; intro ].

Lemma falls_back_emit_template (md : string) (tpl : value) :
  falls_back (emit_template true md tpl) (emit_template false md tpl).
Proof.
  unfold emit_template, emit_heading, emit_items, emit_triggers, emit_macros,
    emit_discovery_rules, emit_item_prototypes, emit_trigger_prototypes,
    extract_items, extract_triggers, extract_macros, extract_discovery_rules.
  cbv zeta. repeat falls_back_step.
Qed.

Lemma falls_back_main (data : value) :
  falls_back (main data true) (main data false).
Proof.
  unfold main.
  repeat (apply falls_back_bind;
          [apply falls_back_pure; first [apply agree_get|apply agree_iter]
          |intro]).
  apply falls_back_for_each. intros. apply falls_back_emit_template.
Qed.


End ProviderDown.

(** ** The tables of the assembler are rectangular *)

Lemma bind_inv {A B} (m : M A) (k : A -> M B) (w w' : world) (b : B) :
  bind m k w = (Ok b, w') ->
  exists a w1, m w = (Ok a, w1) /\ k a w1 = (Ok b, w').
Proof.
  unfold bind. destruct (m w) as [[a|e] w1]; [|discriminate]. eauto.
Qed.

Ltac row_length :=
  let H := fresh "H" in
  intros ? ? ? ? H;
  repeat (apply bind_inv in H; destruct H as (? & ? & _ & H));
  injection H as <- _; reflexivity.

(** X20.  Every list of rows the assembler builds for the renderer has
    one row per record or prototype, and every row has as many cells as
    the table has headers: in the Items, Triggers, Macros and Discovery
    rules tables and in both prototype tables of a rule. *)
Theorem assembler_rows_fit_headers `{RT : Runtime} `{HO : Host}
    (flag : bool) (l : list value) (w w' : world)
    (rows : list (list value)) :
  (item_rows l w = (Ok rows, w') ->
   List.length rows = List.length l
   /\ Forall (fun row => List.length row = List.length item_headers) rows)
  /\ (trigger_rows l w = (Ok rows, w') ->
      List.length rows = List.length l
      /\ Forall (fun row => List.length row = List.length trigger_headers)
           rows)
  /\ (macro_rows l w = (Ok rows, w') ->
      List.length rows = List.length l
      /\ Forall (fun row => List.length row = List.length macro_headers) rows)
  /\ (rule_rows l w = (Ok rows, w') ->
      List.length rows = List.length l
      /\ Forall (fun row => List.length row = List.length rule_headers) rows)
  /\ (item_prototype_rows l flag w = (Ok rows, w') ->
      List.length rows = List.length l
      /\ Forall (fun row => List.length row = List.length item_headers) rows)
  /\ (trigger_prototype_rows l flag w = (Ok rows, w') ->
      List.length rows = List.length l
      /\ Forall (fun row => List.length row = List.length trigger_headers)
           rows).
Proof.
  repeat apply conj; intro E;
    (split; [eapply comprehension_length, E|]);
    (eapply comprehension_Forall; [|exact E]); row_length.
Qed.

(** ** The description paragraph *)

(** X21.  On a template whose description is a text, the heading block
    writes the title line and a blank line, and then: nothing, exactly
    when the description is blank; else the paragraph made of what the
    augmenter returns for the stripped description, sanitized and followed
    by a blank line, the block raising when the augmenter raises.  With
    the flag off the paragraph is the stripped description, sanitized.
    The paragraph is a single line: every line feed of the description is
    replaced. *)
Theorem description_paragraph_one_line `{RT : Runtime} `{HO : Host}
    (tpl : value) (s : string) (flag : bool) (md : string) (w : world) :
  is_dict tpl = true ->
  field tpl "description" (VStr "") = VStr s ->
  printable (field tpl "template" (VStr "")) = true ->
  (strip s = "" ->
   emit_heading tpl flag md w
   = (Ok (md ++ "# Template: "
             ++ py_str (field tpl "template" (VStr "")) ++ nl ++ nl), w))
  /\ (strip s <> "" ->
      emit_heading tpl flag md w
      = paragraph (dual_description (VStr (strip s)) flag w)
          (md ++ "# Template: "
              ++ py_str (field tpl "template" (VStr "")) ++ nl ++ nl))
  /\ (strip s <> "" ->
      emit_heading tpl false md w
      = (Ok ((md ++ "# Template: "
                 ++ py_str (field tpl "template" (VStr "")) ++ nl ++ nl)
             ++ sanitize_description (strip s) ++ nl ++ nl), w))
  /\ (forall dd, count_char LF (sanitize_description dd ++ nl ++ nl) = 2).
Proof.
  intros Hd Hs Hp.
  assert (E : forall flag,
             emit_heading tpl flag md w
             = if String.eqb (strip s) ""
               then (Ok (md ++ "# Template: "
                            ++ py_str (field tpl "template" (VStr ""))
                            ++ nl ++ nl), w)
               else paragraph (dual_description (VStr (strip s)) flag w)
                      (md ++ "# Template: "
                          ++ py_str (field tpl "template" (VStr ""))
                          ++ nl ++ nl)).
  { intro f. destruct tpl as [| | | | |d]; try discriminate.
    unfold emit_heading.
    rewrite (bind_ok _ _ _ _ _ (get_dict d _ _ w)). cbv beta.
    rewrite (bind_ok _ _ _ _ _ (str_printable _ w Hp)). cbv beta zeta.
    rewrite (bind_ok _ _ _ _ _ (get_dict d _ _ w)). cbv beta.
    rewrite Hs. cbn [str_method]. rewrite bind_ret_l. cbn [truthy].
    destruct (String.eqb (strip s) ""); cbn [negb]; [reflexivity|].
    unfold bind, paragraph.
    destruct (dual_description (VStr (strip s)) f w) as [[dd|e] w1];
      [|reflexivity].
    destruct dd; reflexivity. }
  repeat apply conj.
  - intro B. rewrite E. now rewrite B.
  - intro B. rewrite E. now destruct (String.eqb_spec (strip s) "").
  - intro B. rewrite E. now destruct (String.eqb_spec (strip s) "").
  - intro dd. rewrite count_char_app, sanitize_flat, sanitize_no_line_feed.
    reflexivity.
Qed.

(** ** The further properties at concrete documents *)

Lemma extract_items_collection_not_list_witness :
  lookup [("items", VNone)] "items" = Some VNone
  /\ not_iterable VNone = true
  /\ @extract_items (host_of_provider upper_provider)
       (VDict [("items", VNone)]) true w0
     = (Raise TypeError, w0).
Proof.
  do 2 (split; [reflexivity|]).
  apply (@extract_items_collection_not_list upper_provider
           [("items", VNone)] VNone true w0 eq_refl).
  reflexivity.
Defined.

Lemma extract_items_entry_not_mapping_witness :
  lookup [("items", VList ([VDict []] ++ VStr "CPU" :: []))] "items"
  = Some (VList ([VDict []] ++ VStr "CPU" :: []))
  /\ forallb (shaped_entry true) [VDict []] = true
  /\ is_dict (VStr "CPU") = false
  /\ exists w',
       @extract_items (host_of_provider upper_provider)
         (VDict [("items", VList ([VDict []] ++ VStr "CPU" :: []))]) true w0
       = (Raise AttributeError, w').
Proof.
  do 3 (split; [reflexivity|]).
  exact (@extract_items_entry_not_mapping upper_provider
           [("items", VList ([VDict []] ++ VStr "CPU" :: []))]
           [VDict []] [] (VStr "CPU") true w0 eq_refl eq_refl eq_refl).
Defined.

Lemma description_not_text_raises_witness :
  lookup [("template", VStr "Linux"); ("description", VNone)] "description"
  = Some VNone
  /\ @printable quoting_runtime
       (field (VDict [("template", VStr "Linux"); ("description", VNone)])
          "template" (VStr "")) = true
  /\ @main quoting_runtime (host_of_provider failing_provider)
       (document [VDict [("template", VStr "Linux"); ("description", VNone)]])
       false w0
     = (Raise AttributeError, w0).
Proof.
  do 2 (split; [reflexivity|]).
  apply (@description_not_text_raises quoting_runtime failing_provider
           [("template", VStr "Linux"); ("description", VNone)] VNone []
           false "" w0 eq_refl (or_introl eq_refl) eq_refl).
Defined.

Lemma prototypes_heading_without_name_witness :
  shaped_rule false nameless_rule = true
  /\ @printable quoting_runtime nameless_rule = true
  /\ has_key nameless_rule "name" = false
  /\ entries nameless_rule "item_prototypes" <> []
  /\ succeeds (@emit_item_prototypes quoting_runtime
                 (host_of_provider failing_provider) nameless_rule false "")
       (fun out =>
          exists rows,
            out = "" ++ "### Item prototypes for discovery: None" ++ nl ++ nl
                     ++ @table_text quoting_runtime item_headers rows
                     ++ nl ++ nl).
Proof.
  assert (H : entries nameless_rule "item_prototypes" <> []) by discriminate.
  do 3 (split; [reflexivity|]). split; [exact H|].
  apply (@prototypes_heading_without_name quoting_runtime failing_provider
           nameless_rule false "" eq_refl eq_refl eq_refl H).
Defined.

Example emit_item_prototypes_nameless :
  @emit_item_prototypes quoting_runtime (host_of_provider failing_provider)
    nameless_rule false "" w0
  = (Ok ("### Item prototypes for discovery: None" ++ nl ++ nl
         ++ "| Name | Key | Type | Value type | Units | Description |" ++ nl
         ++ "| --- | --- | --- | --- | --- | --- |" ++ nl
         ++ "| Free |  |  |  |  |  |" ++ nl ++ nl ++ nl), w0).
Proof. reflexivity. Qed.

Lemma run_prints_closing_line_only_witness :
  never_fails (host_of_provider upper_provider)
  /\ diag (snd (@main quoting_runtime (host_of_provider upper_provider)
                  sample_document true w0))
     = diag w0.
Proof.
  assert (H : never_fails (host_of_provider upper_provider))
    by (intros history text; eexists; reflexivity).
  split; [exact H|].
  apply (@run_prints_closing_line_only quoting_runtime
           (host_of_provider upper_provider) sample_document true "README.md"
           w0 H).
Defined.

(** The whole run on the sample document: one text sent, one line
    printed, the closing message. *)
Example run_sample_document :
  snd (@run quoting_runtime (host_of_provider upper_provider) sample_document
         true "README.md" w0)
  = {| sent := ["Base" ++ nl ++ "OS | agent"];
       diag := ["Документация сохранена в README.md"] |}.
Proof. reflexivity. Qed.

Lemma main_sends_no_blank_text_witness :
  Forall (fun t => strip t <> "") (sent w0)
  /\ Forall (fun t => strip t <> "")
       (sent (snd (@main quoting_runtime (host_of_provider upper_provider)
                     sample_document true w0))).
Proof.
  assert (H : Forall (fun t => strip t <> "") (sent w0)) by constructor.
  split; [exact H|].
  exact (@main_sends_no_blank_text quoting_runtime
           (host_of_provider upper_provider) sample_document true w0 H).
Defined.


Lemma assembler_rows_fit_headers_witness :
  @item_prototype_rows quoting_runtime (host_of_provider upper_provider)
    [VDict [("name", VStr "Free"); ("type", VInt 7)]; VDict []] true w0
  = (Ok [[VStr "Free"; VStr ""; VStr "7"; VStr ""; VStr ""; VStr ""];
         [VStr ""; VStr ""; VStr ""; VStr ""; VStr ""; VStr ""]], w0)
  /\ List.length
       [[VStr "Free"; VStr ""; VStr "7"; VStr ""; VStr ""; VStr ""];
        [VStr ""; VStr ""; VStr ""; VStr ""; VStr ""; VStr ""]]
     = List.length [VDict [("name", VStr "Free"); ("type", VInt 7)]; VDict []]
  /\ Forall (fun row => List.length row = List.length item_headers)
       [[VStr "Free"; VStr ""; VStr "7"; VStr ""; VStr ""; VStr ""];
        [VStr ""; VStr ""; VStr ""; VStr ""; VStr ""; VStr ""]].
Proof.
  split; [reflexivity|].
  apply (@assembler_rows_fit_headers quoting_runtime
           (host_of_provider upper_provider) true
           [VDict [("name", VStr "Free"); ("type", VInt 7)]; VDict []]
           w0 w0).
  reflexivity.
Defined.

Lemma description_paragraph_one_line_witness :
  is_dict sample_template = true
  /\ field sample_template "description" (VStr "")
     = VStr (" Base" ++ nl ++ "OS | agent ")
  /\ @printable quoting_runtime (field sample_template "template" (VStr ""))
     = true
  /\ strip (" Base" ++ nl ++ "OS | agent ") <> ""
  /\ @emit_heading quoting_runtime (host_of_provider upper_provider)
       sample_template false "" w0
     = (Ok (("" ++ "# Template: "
                ++ @py_str quoting_runtime
                     (field sample_template "template" (VStr ""))
                ++ nl ++ nl)
            ++ sanitize_description (strip (" Base" ++ nl ++ "OS | agent "))
            ++ nl ++ nl), w0).
Proof.
  assert (H : strip (" Base" ++ nl ++ "OS | agent ") <> "") by discriminate.
  do 3 (split; [reflexivity|]). split; [exact H|].
  apply (@description_paragraph_one_line quoting_runtime
           (host_of_provider upper_provider) sample_template
           (" Base" ++ nl ++ "OS | agent ") false "" w0 eq_refl eq_refl
           eq_refl).
  exact H.
Defined.

(** The heading block on the sample template, with a provider that
    answers. *)
Example emit_heading_sample :
  @emit_heading quoting_runtime (host_of_provider upper_provider)
    sample_template true "" w0
  = (Ok ("# Template: Linux" ++ nl ++ nl
         ++ "RU:Base<br>OS \| agent<br><i>Base<br>OS \| agent</i>"
         ++ nl ++ nl),
     {| sent := ["Base" ++ nl ++ "OS | agent"]; diag := [] |}).
Proof. reflexivity. Qed.
